(** * Single-select category filter for the events calendar

    A shallow embedding of [events.js] (the FullCalendar behaviour
    [Drupal.behaviors.calendarWithSingleFilter], last variant of the file):
    the category normaliser [norm], the markup reader
    [readDefaultFromMarkup], the button synchronisation [updateButtonsUI] and
    [wireButtonsIfPresent], the two filtering paths [eventDataTransform] and
    [applyFilter], the source guard [ensureSingleEventSource] and the
    behaviour entry point [attach].  The styling done by the [loading] and
    [failure] callbacks, the callback of the MutationObserver, and the two
    earlier variants of the behaviour in the same file (modules [V1] and
    [V2]) follow the main model.

    Conventions of the embedding.
    - A JavaScript string is a [string] whose characters are UTF-16 code
      units in the range U+0000..U+00FF; [trim] and [toLowerCase] are the
      ECMAScript functions restricted to that range, which they map into
      itself.
    - A JavaScript primitive is a [JsValue]; an absent property reads as
      [JUndefined].
    - The closure variables of [attach], the part of the document the script
      reads and writes, and the calendar widget's events and sources are the
      fields of one record, [Page]; every function of the script is a
      function on [Page]. *)

From Stdlib Require Import Bool Arith ZArith List Lia.
From Stdlib Require Import Strings.Ascii Strings.String Numbers.DecimalString.
From Stdlib Require Numbers.DecimalPos.
Import ListNotations.
Open Scope string_scope.
Open Scope nat_scope.

(** ** JavaScript values and the string primitives the script uses *)

Inductive JsValue : Type :=
| JNull
| JUndefined
| JBool (b : bool)
| JNum (n : Z)
| JStr (s : string).

(** [val == null] holds of [null] and [undefined] only. *)
Definition looseNull (val : JsValue) : bool :=
  match val with
  | JNull | JUndefined => true
  | _ => false
  end.

(** [a ?? b] *)
Definition nullish (a b : JsValue) : JsValue :=
  if looseNull a then b else a.

(** [String(val)].  [JNum n] stands for the Number whose value is the
    integer [n]; the text below is what Number::toString gives for the safe
    integers, those of magnitude at most 2^53 - 1 ([MAX_SAFE_INTEGER]): the
    decimal expansion, with a leading minus sign for negatives.  Beyond
    them a Number prints rounded digits, and from 10^21 on in exponent
    notation, so a statement that depends on the digits of a number is made
    for safe integers only. *)
Definition ToString (val : JsValue) : string :=
  match val with
  | JNull => "null"
  | JUndefined => "undefined"
  | JBool true => "true"
  | JBool false => "false"
  | JNum n => NilEmpty.string_of_int (Z.to_int n)
  | JStr s => s
  end.

(** WhiteSpace and LineTerminator code points below U+0100:
    TAB, LF, VT, FF, CR, SP, NBSP. *)
Definition isWhiteSpace (c : ascii) : bool :=
  let n := nat_of_ascii c in
  (n =? 9) || (n =? 10) || (n =? 11) || (n =? 12) || (n =? 13)
  || (n =? 32) || (n =? 160).

(** The class [\d] of a regular expression without the unicode flag. *)
Definition isDigit (c : ascii) : bool :=
  let n := nat_of_ascii c in (48 <=? n) && (n <=? 57).

(** Lower-case mapping of one code unit: A-Z, and the Latin-1 capitals
    U+00C0..U+00DE except the multiplication sign U+00D7. *)
Definition lowerChar (c : ascii) : ascii :=
  let n := nat_of_ascii c in
  if ((65 <=? n) && (n <=? 90))
     || ((192 <=? n) && (n <=? 222) && negb (n =? 215))
  then ascii_of_nat (n + 32)
  else c.

Fixpoint toLowerCase (s : string) : string :=
  match s with
  | EmptyString => EmptyString
  | String c r => String (lowerChar c) (toLowerCase r)
  end.

Fixpoint trimStart (s : string) : string :=
  match s with
  | EmptyString => EmptyString
  | String c r => if isWhiteSpace c then trimStart r else s
  end.

Fixpoint trimEnd (s : string) : string :=
  match s with
  | EmptyString => EmptyString
  | String c r =>
      match trimEnd r with
      | EmptyString => if isWhiteSpace c then EmptyString else String c EmptyString
      | r' => String c r'
      end
  end.

Definition trim (s : string) : string := trimEnd (trimStart s).

(** The longest prefix of digits. *)
Fixpoint digitRun (s : string) : string :=
  match s with
  | EmptyString => EmptyString
  | String c r => if isDigit c then String c (digitRun r) else EmptyString
  end.

(** [s.match(/\d+/)]: [None] is the [null] of a failed match, [Some m] is
    element 0 of the match array, the leftmost longest run of digits. *)
Fixpoint matchDigits (s : string) : option string :=
  match s with
  | EmptyString => None
  | String c r => if isDigit c then Some (String c (digitRun r)) else matchDigits r
  end.

(** ** [norm] *)

Definition norm (val : JsValue) : string :=
  if looseNull val then ""
  else
    let s := toLowerCase (trim (ToString val)) in
    if String.eqb s "all" then "all"
    else match matchDigits s with
         | Some m0 => m0
         | None => s
         end.

(** *** The normaliser in the words of its contract *)

Fixpoint allChars (p : ascii -> bool) (s : string) : bool :=
  match s with
  | EmptyString => true
  | String c r => p c && allChars p r
  end.

Definition noDigits (s : string) : bool := allChars (fun c => negb (isDigit c)) s.
Definition allDigits (s : string) : bool := allChars isDigit s.
Definition blank (s : string) : bool := allChars isWhiteSpace s.

(** [r] is the first run of decimal digits of [s]: nothing before it is a
    digit, it is not empty, and it stops at the end of [s] or at a
    character that is not a digit. *)
Definition FirstDigitRun (s r : string) : Prop :=
  exists pre post,
    s = pre ++ r ++ post /\
    noDigits pre = true /\
    allDigits r = true /\ r <> "" /\
    digitRun post = "".

Inductive NormSpec : JsValue -> string -> Prop :=
| NormNull v :
    looseNull v = true -> NormSpec v ""
| NormBlank v :
    looseNull v = false -> blank (ToString v) = true -> NormSpec v ""
| NormAll v :
    looseNull v = false ->
    toLowerCase (trim (ToString v)) = "all" -> NormSpec v "all"
| NormDigits v r :
    looseNull v = false ->
    toLowerCase (trim (ToString v)) <> "all" ->
    FirstDigitRun (toLowerCase (trim (ToString v))) r -> NormSpec v r
| NormText v :
    looseNull v = false ->
    toLowerCase (trim (ToString v)) <> "all" ->
    noDigits (toLowerCase (trim (ToString v))) = true ->
    NormSpec v (toLowerCase (trim (ToString v))).

(** ** The document, the widget and the closure of [attach] *)

(** A [.fc-filter-btn] button.  [data_cat] is [getAttribute('data-cat')]
    ([None] is [null]); the three [cls_] fields are membership of the
    classes [active], [btn-primary] and [btn-outline-primary];
    [dataset_wired] is [dataset.wired === '1']; [clickListeners] counts the
    click listeners the script has added. *)
Record Button : Type := {
  data_cat : option string;
  cls_active : bool;
  cls_btn_primary : bool;
  cls_btn_outline_primary : bool;
  aria_pressed : option string;
  dataset_wired : bool;
  clickListeners : nat
}.

(** A [#calendar] element; [once_fc_init] is the marker that
    [once('fc-init', ...)] leaves on an element it has handed out. *)
Record CalendarEl : Type := {
  once_fc_init : bool
}.

(** [extendedProps] of an event; an absent property is [JUndefined]. *)
Record ExtendedProps : Type := {
  category : JsValue;
  Category : JsValue;
  type : JsValue
}.

(** An event as the script reads and writes it: a raw feed record handed to
    [eventDataTransform], or an event object of [calendar.getEvents()].
    [extendedProps] is [None] when the property is absent; [raw_category]
    is the top-level property [category]; [sourceId] is the internal id of
    the source the event came from.
    The widget does not keep a record as it is: a top-level property it
    does not know, such as [category], is moved under [extendedProps] of
    the event object, and [className] becomes the event's class names.  An
    event object therefore has no top-level [category], and what a
    statement says of a record and of an event object with the same fields
    holds of a record and the event made of it only when the record has no
    top-level [category]. *)
Record EventObj : Type := {
  extendedProps : option ExtendedProps;
  raw_category : JsValue;
  className : JsValue;
  display : JsValue;
  sourceId : nat
}.

(** An event source of the widget: [internalId] is the identity of the
    source object, [src_id] its public [id], [url] its [url] property
    ([None] when the source has none). *)
Record EventSource : Type := {
  internalId : nat;
  src_id : string;
  url : option string
}.

(** The page.
    - [fcCalendarInstance] is [window.__fcCalendarInstance]: [None] while
      the property is unset, [Some k] once it holds the [k]-th calendar
      constructed.
    - [calendarNodes] are the [#calendar] elements of the document, in
      document order.
    - [filterGroup] is [#filterEventsGroup] with its [.fc-filter-btn]
      buttons, [None] while the element is not in the document.
    - [activeCategoryRaw], [activeCategory] and [buttonsWired] are the
      closure variables of [attach].
    - [constructed] counts the runs of [new FullCalendar.Calendar].
    - [events] and [sources] are [calendar.getEvents()] and
      [calendar.getEventSources()]; [removalLog] lists the internal ids on
      which [remove()] was called, oldest first.
    - [observers] counts the MutationObservers [attach] has registered and
      [consoleWarnings] the calls of [console.warn]. *)
Record Page : Type := {
  fcCalendarInstance : option nat;
  calendarNodes : list CalendarEl;
  filterGroup : option (list Button);
  activeCategoryRaw : string;
  activeCategory : string;
  buttonsWired : bool;
  constructed : nat;
  events : list EventObj;
  sources : list EventSource;
  removalLog : list nat;
  observers : nat;
  consoleWarnings : nat
}.

Definition set_fcCalendarInstance (x : option nat) (p : Page) : Page :=
  {| fcCalendarInstance := x;
     calendarNodes := calendarNodes p;
     filterGroup := filterGroup p;
     activeCategoryRaw := activeCategoryRaw p;
     activeCategory := activeCategory p;
     buttonsWired := buttonsWired p;
     constructed := constructed p;
     events := events p;
     sources := sources p;
     removalLog := removalLog p;
     observers := observers p;
     consoleWarnings := consoleWarnings p |}.

Definition set_calendarNodes (x : list CalendarEl) (p : Page) : Page :=
  {| fcCalendarInstance := fcCalendarInstance p;
     calendarNodes := x;
     filterGroup := filterGroup p;
     activeCategoryRaw := activeCategoryRaw p;
     activeCategory := activeCategory p;
     buttonsWired := buttonsWired p;
     constructed := constructed p;
     events := events p;
     sources := sources p;
     removalLog := removalLog p;
     observers := observers p;
     consoleWarnings := consoleWarnings p |}.

Definition set_filterGroup (x : option (list Button)) (p : Page) : Page :=
  {| fcCalendarInstance := fcCalendarInstance p;
     calendarNodes := calendarNodes p;
     filterGroup := x;
     activeCategoryRaw := activeCategoryRaw p;
     activeCategory := activeCategory p;
     buttonsWired := buttonsWired p;
     constructed := constructed p;
     events := events p;
     sources := sources p;
     removalLog := removalLog p;
     observers := observers p;
     consoleWarnings := consoleWarnings p |}.

Definition set_activeCategoryRaw (x : string) (p : Page) : Page :=
  {| fcCalendarInstance := fcCalendarInstance p;
     calendarNodes := calendarNodes p;
     filterGroup := filterGroup p;
     activeCategoryRaw := x;
     activeCategory := activeCategory p;
     buttonsWired := buttonsWired p;
     constructed := constructed p;
     events := events p;
     sources := sources p;
     removalLog := removalLog p;
     observers := observers p;
     consoleWarnings := consoleWarnings p |}.

Definition set_activeCategory (x : string) (p : Page) : Page :=
  {| fcCalendarInstance := fcCalendarInstance p;
     calendarNodes := calendarNodes p;
     filterGroup := filterGroup p;
     activeCategoryRaw := activeCategoryRaw p;
     activeCategory := x;
     buttonsWired := buttonsWired p;
     constructed := constructed p;
     events := events p;
     sources := sources p;
     removalLog := removalLog p;
     observers := observers p;
     consoleWarnings := consoleWarnings p |}.

Definition set_buttonsWired (x : bool) (p : Page) : Page :=
  {| fcCalendarInstance := fcCalendarInstance p;
     calendarNodes := calendarNodes p;
     filterGroup := filterGroup p;
     activeCategoryRaw := activeCategoryRaw p;
     activeCategory := activeCategory p;
     buttonsWired := x;
     constructed := constructed p;
     events := events p;
     sources := sources p;
     removalLog := removalLog p;
     observers := observers p;
     consoleWarnings := consoleWarnings p |}.

Definition set_constructed (x : nat) (p : Page) : Page :=
  {| fcCalendarInstance := fcCalendarInstance p;
     calendarNodes := calendarNodes p;
     filterGroup := filterGroup p;
     activeCategoryRaw := activeCategoryRaw p;
     activeCategory := activeCategory p;
     buttonsWired := buttonsWired p;
     constructed := x;
     events := events p;
     sources := sources p;
     removalLog := removalLog p;
     observers := observers p;
     consoleWarnings := consoleWarnings p |}.

Definition set_events (x : list EventObj) (p : Page) : Page :=
  {| fcCalendarInstance := fcCalendarInstance p;
     calendarNodes := calendarNodes p;
     filterGroup := filterGroup p;
     activeCategoryRaw := activeCategoryRaw p;
     activeCategory := activeCategory p;
     buttonsWired := buttonsWired p;
     constructed := constructed p;
     events := x;
     sources := sources p;
     removalLog := removalLog p;
     observers := observers p;
     consoleWarnings := consoleWarnings p |}.

Definition set_sources (x : list EventSource) (p : Page) : Page :=
  {| fcCalendarInstance := fcCalendarInstance p;
     calendarNodes := calendarNodes p;
     filterGroup := filterGroup p;
     activeCategoryRaw := activeCategoryRaw p;
     activeCategory := activeCategory p;
     buttonsWired := buttonsWired p;
     constructed := constructed p;
     events := events p;
     sources := x;
     removalLog := removalLog p;
     observers := observers p;
     consoleWarnings := consoleWarnings p |}.

Definition set_removalLog (x : list nat) (p : Page) : Page :=
  {| fcCalendarInstance := fcCalendarInstance p;
     calendarNodes := calendarNodes p;
     filterGroup := filterGroup p;
     activeCategoryRaw := activeCategoryRaw p;
     activeCategory := activeCategory p;
     buttonsWired := buttonsWired p;
     constructed := constructed p;
     events := events p;
     sources := sources p;
     removalLog := x;
     observers := observers p;
     consoleWarnings := consoleWarnings p |}.

Definition set_observers (x : nat) (p : Page) : Page :=
  {| fcCalendarInstance := fcCalendarInstance p;
     calendarNodes := calendarNodes p;
     filterGroup := filterGroup p;
     activeCategoryRaw := activeCategoryRaw p;
     activeCategory := activeCategory p;
     buttonsWired := buttonsWired p;
     constructed := constructed p;
     events := events p;
     sources := sources p;
     removalLog := removalLog p;
     observers := x;
     consoleWarnings := consoleWarnings p |}.

Definition set_consoleWarnings (x : nat) (p : Page) : Page :=
  {| fcCalendarInstance := fcCalendarInstance p;
     calendarNodes := calendarNodes p;
     filterGroup := filterGroup p;
     activeCategoryRaw := activeCategoryRaw p;
     activeCategory := activeCategory p;
     buttonsWired := buttonsWired p;
     constructed := constructed p;
     events := events p;
     sources := sources p;
     removalLog := removalLog p;
     observers := observers p;
     consoleWarnings := x |}.

(** ** Helpers of the script *)

Definition FEED_URL : string := "/event/calendar-feed.json".

(** [a || 'all'] for [a] a string or [null]: the empty string and [null]
    are the falsy ones. *)
Definition orAll (a : option string) : string :=
  match a with
  | Some s => if String.eqb s "" then "all" else s
  | None => "all"
  end.

Definition getFilterGroup (p : Page) : option (list Button) := filterGroup p.

(** [group.querySelector('.fc-filter-btn.active')]: the first button, in
    document order, that carries the class [active]. *)
Definition querySelectorActive (group : list Button) : option Button :=
  find cls_active group.

Definition readDefaultFromMarkup (p : Page) : option string :=
  match getFilterGroup p with
  | None => None
  | Some group =>
      match querySelectorActive group with
      | Some btn => Some (orAll (data_cat btn))
      | None => Some "all"
      end
  end.

(** The two assignments [activeCategoryRaw = raw; activeCategory =
    norm(activeCategoryRaw)]. *)
Definition setActiveFrom (raw : string) (p : Page) : Page :=
  set_activeCategory (norm (JStr raw)) (set_activeCategoryRaw raw p).

(** [if (fromMarkup) { activeCategoryRaw = fromMarkup; activeCategory =
    norm(activeCategoryRaw); }]: [null] and the empty string are falsy. *)
Definition adoptMarkup (fromMarkup : option string) (p : Page) : Page :=
  match fromMarkup with
  | None => p
  | Some raw => if String.eqb raw "" then p else setActiveFrom raw p
  end.

(** The body of the [forEach] of [updateButtonsUI] for one button. *)
Definition syncButton (active : string) (btn : Button) : Button :=
  let catRaw := orAll (data_cat btn) in
  let isOn := String.eqb (norm (JStr catRaw)) active in
  {| data_cat := data_cat btn;
     cls_active := isOn;
     cls_btn_primary := isOn;
     cls_btn_outline_primary := negb isOn;
     aria_pressed := Some (if isOn then "true" else "false");
     dataset_wired := dataset_wired btn;
     clickListeners := clickListeners btn |}.

(** [updateButtonsUI(group)].  The argument is always the element that
    [getFilterGroup] returned; its buttons are read when the function runs,
    so the function acts on the [filterGroup] field. *)
Definition updateButtonsUI (p : Page) : Page :=
  match filterGroup p with
  | None => p
  | Some buttons => set_filterGroup (Some (map (syncButton (activeCategory p)) buttons)) p
  end.

(** The category an event object carries under [extendedProps]:
    [ev.extendedProps && (ev.extendedProps.category ??
    ev.extendedProps.Category ?? ev.extendedProps.type)]. *)
Definition extendedCategory (ev : EventObj) : JsValue :=
  match extendedProps ev with
  | None => JUndefined
  | Some ep => nullish (nullish (category ep) (Category ep)) (type ep)
  end.

Definition setDisplay (show : bool) (ev : EventObj) : EventObj :=
  {| extendedProps := extendedProps ev;
     raw_category := raw_category ev;
     className := className ev;
     display := JStr (if show then "auto" else "none");
     sourceId := sourceId ev |}.

(** The body of the loop of [applyFilter] for one event. *)
Definition filterEvent (active : string) (ev : EventObj) : EventObj :=
  let evCat := norm (nullish (extendedCategory ev) (JStr "")) in
  let show := String.eqb active "all" || String.eqb evCat active in
  setDisplay show ev.

(** [applyFilter()]: one batched pass over [calendar.getEvents()]. *)
Definition applyFilter (p : Page) : Page :=
  set_events (map (filterEvent (activeCategory p)) (events p)) p.

(** [eventDataTransform(raw)]: the closure state after the call and the
    record returned to the widget. *)
Definition eventDataTransform (raw : EventObj) (p : Page) : Page * EventObj :=
  let fromMarkup := readDefaultFromMarkup p in
  let p1 := adoptMarkup fromMarkup p in
  let evCat :=
    norm (nullish (nullish (extendedCategory raw) (raw_category raw)) (className raw)) in
  let show := String.eqb (activeCategory p1) "all" || String.eqb evCat (activeCategory p1) in
  (p1, setDisplay show raw).

(** [s.remove()]: the widget drops the source object and the events that
    came from it. *)
Definition sourceRemove (s : EventSource) (p : Page) : Page :=
  set_removalLog (removalLog p ++ [internalId s])%list
    (set_events (filter (fun ev => negb (sourceId ev =? internalId s)) (events p))
       (set_sources (filter (fun x => negb (internalId x =? internalId s)) (sources p)) p)).

Definition urlIsFeed (s : EventSource) : bool :=
  match url s with
  | Some u => String.eqb u FEED_URL
  | None => false
  end.

Definition ensureSingleEventSource (p : Page) : Page :=
  let matching := filter urlIsFeed (sources p) in
  if 1 <? List.length matching
  then fold_left (fun q s => sourceRemove s q) (skipn 1 matching) p
  else p.

(** The click listener that [wireButtonsIfPresent] adds to the button at
    position [i] of the group. *)
Definition clickListener (i : nat) (p : Page) : Page :=
  match filterGroup p with
  | None => p
  | Some buttons =>
      match nth_error buttons i with
      | None => p
      | Some btn => applyFilter (updateButtonsUI (setActiveFrom (orAll (data_cat btn)) p))
      end
  end.

(** The body of the wiring [forEach] for one button. *)
Definition wireButton (btn : Button) : Button :=
  if dataset_wired btn then btn
  else {| data_cat := data_cat btn;
          cls_active := cls_active btn;
          cls_btn_primary := cls_btn_primary btn;
          cls_btn_outline_primary := cls_btn_outline_primary btn;
          aria_pressed := aria_pressed btn;
          dataset_wired := true;
          clickListeners := S (clickListeners btn) |}.

Definition wireButtonsIfPresent (p : Page) : Page * bool :=
  match getFilterGroup p with
  | None => (p, false)
  | Some buttons =>
      let p1 :=
        if negb (buttonsWired p)
        then let fromMarkup := readDefaultFromMarkup p in adoptMarkup fromMarkup p
        else p in
      let p2 := set_filterGroup (Some (map wireButton buttons)) p1 in
      (set_buttonsWired true (updateButtonsUI p2), true)
  end.

(** [loading(isLoading)]; the spinner and the container's visibility are
    styling outside the page model.  [events] and [sources] of the page are
    what [calendar.getEvents()] and [calendar.getEventSources()] return
    when the callback runs: the widget calls [loading(false)] before it
    takes in the records of the fetch that ends, so these are the events of
    earlier fetches.  [setProp] and [remove] are taken to act at once; the
    widget queues what a callback asks for and applies it when the callback
    has returned. *)
Definition loading (isLoading : bool) (p : Page) : Page :=
  if negb isLoading
  then applyFilter (ensureSingleEventSource (fst (wireButtonsIfPresent p)))
  else p.

(** ** [attach] *)

(** [once('fc-init', '#calendar', context)] of the [once] library: the
    [#calendar] elements inside [context] that do not carry the marker yet,
    each of which receives it.  [context] tells, by position in the
    document, which [#calendar] elements lie inside the context node. *)
Fixpoint onceFrom (context : nat -> bool) (i : nat) (els : list CalendarEl)
  : list nat * list CalendarEl :=
  match els with
  | [] => ([], [])
  | el :: rest =>
      let '(found, rest') := onceFrom context (S i) rest in
      if context i && negb (once_fc_init el)
      then (i :: found, {| once_fc_init := true |} :: rest')
      else (found, el :: rest')
  end.

Definition once (context : nat -> bool) (p : Page) : list nat * Page :=
  let '(found, els) := onceFrom context 0 (calendarNodes p) in
  (found, set_calendarNodes els p).

Definition isSome {A : Type} (o : option A) : bool :=
  match o with Some _ => true | None => false end.

(** [new FullCalendar.Calendar(el, options)]: a widget with no events yet
    and the one source of the [eventSources] option. *)
Definition newCalendar (p : Page) : Page :=
  set_removalLog []
    (set_sources [{| internalId := 0; src_id := "main-feed"; url := Some FEED_URL |}]
       (set_events [] (set_constructed (S (constructed p)) p))).

(** [attach(context, settings)]: the page after the call and the value the
    call returns.  Every [return] of the function is a bare [return;] and
    the body ends without one, so the value is [undefined] on each path.
    [calendar.render()] starts the widget's fetch; its effects reach the
    script through [eventDataTransform] and [loading]. *)
Definition attach (context : nat -> bool) (p : Page) : Page * JsValue :=
  if isSome (fcCalendarInstance p) then (p, JUndefined)
  else
    let '(calendarEls, p0) := once context p in
    match calendarEls with
    | [] => (p0, JUndefined)
    | el :: _ =>
        if 1 <? List.length (calendarNodes p0)
        then (set_consoleWarnings (S (consoleWarnings p0)) p0, JUndefined)
        else
          let p1 := set_buttonsWired false (setActiveFrom (orAll (readDefaultFromMarkup p0)) p0) in
          let p2 := newCalendar p1 in
          let p3 := set_fcCalendarInstance (Some (constructed p2)) p2 in
          let '(p4, wiredNow) := wireButtonsIfPresent p3 in
          let p5 := if wiredNow then p4 else set_observers (S (observers p4)) p4 in
          (ensureSingleEventSource p5, JUndefined)
    end.

(** ** Runs of the page

    What can happen to the page after [attach]: the user clicks a button
    (every listener of the button runs), the widget calls one of its two
    hooks, or something outside the script rewrites the filter markup. *)

Inductive Action : Type :=
| Click (i : nat)
| Transform (raw : EventObj)
| Loading (isLoading : bool)
| SetMarkup (group : option (list Button)).

Definition click (i : nat) (p : Page) : Page :=
  match filterGroup p with
  | None => p
  | Some buttons =>
      match nth_error buttons i with
      | None => p
      | Some btn => Nat.iter (clickListeners btn) (clickListener i) p
      end
  end.

Definition step (p : Page) (a : Action) : Page :=
  match a with
  | Click i => click i p
  | Transform raw => fst (eventDataTransform raw p)
  | Loading isLoading => loading isLoading p
  | SetMarkup group => set_filterGroup group p
  end.

Definition run (p : Page) (trace : list Action) : Page := fold_left step trace p.

(** ** Auxiliary notions used in the proofs *)

(** A string that does not start with white space. *)
Definition headed (s : string) : bool :=
  match s with
  | EmptyString => true
  | String c _ => negb (isWhiteSpace c)
  end.

(** What is left of a string after its leading digits. *)
Fixpoint dropDigits (s : string) : string :=
  match s with
  | EmptyString => EmptyString
  | String c r => if isDigit c then dropDigits r else s
  end.

(** The category key [applyFilter] computes for an event object, and the
    one [eventDataTransform] computes for a raw record. *)
Definition eventKey (ev : EventObj) : string :=
  norm (nullish (extendedCategory ev) (JStr "")).

Definition rawKey (raw : EventObj) : string :=
  norm (nullish (nullish (extendedCategory raw) (raw_category raw)) (className raw)).

(** An event is to be shown under the active category [A] when [A] is
    ["all"] or the event's normalised category is [A]. *)
Definition Shown (A : string) (ev : EventObj) : Prop :=
  A = "all" \/ eventKey ev = A.

(** Two events that differ at most in their [display] property. *)
Definition sameButDisplay (ev ev' : EventObj) : Prop :=
  extendedProps ev' = extendedProps ev /\
  raw_category ev' = raw_category ev /\
  className ev' = className ev /\
  sourceId ev' = sourceId ev.

(** *** Sample pages

    The filter block of the file's header comment, a page that has not run
    the script yet, and a context that covers the whole document. *)

Definition mkButton (cat : option string) (active : bool) : Button :=
  {| data_cat := cat;
     cls_active := active;
     cls_btn_primary := active;
     cls_btn_outline_primary := negb active;
     aria_pressed := Some (if active then "true" else "false");
     dataset_wired := false;
     clickListeners := 0 |}.

Definition headerGroup : list Button :=
  [ mkButton (Some "category-904") true;
    mkButton (Some "category-3") false;
    mkButton (Some "category-1") false;
    mkButton (Some "category-8") false ].

Definition freshPage (group : option (list Button)) (containers : nat) : Page :=
  {| fcCalendarInstance := None;
     calendarNodes := repeat {| once_fc_init := false |} containers;
     filterGroup := group;
     activeCategoryRaw := "";
     activeCategory := "";
     buttonsWired := false;
     constructed := 0;
     events := [];
     sources := [];
     removalLog := [];
     observers := 0;
     consoleWarnings := 0 |}.

Definition wholeDocument : nat -> bool := fun _ => true.

(** The page right after [attach] ran on the header's markup. *)
Definition headerPage : Page := fst (attach wholeDocument (freshPage (Some headerGroup) 1)).

(** A feed record whose category is carried by [className] only. *)
Definition classNameRecord : EventObj :=
  {| extendedProps := None;
     raw_category := JUndefined;
     className := JStr "category-904";
     display := JUndefined;
     sourceId := 0 |}.

(** The filter block after the server rendered it anew, without the
    category the user had chosen. *)
Definition rerenderedGroup : list Button :=
  [ mkButton (Some "category-904") true;
    mkButton (Some "category-8") false ].

(** The normalised category of a button, as [updateButtonsUI] compares it. *)
Definition catKey (btn : Button) : string := norm (JStr (orAll (data_cat btn))).

(** The buttons of a group that carry the selected state. *)
Definition selected (group : list Button) : list Button := filter cls_active group.

(** A button is in step with the active category [A]: it is selected
    exactly when its normalised category is [A], and [aria-pressed] says
    so. *)
Definition InStep (A : string) (btn : Button) : Prop :=
  (cls_active btn = true <-> catKey btn = A) /\
  (aria_pressed btn = Some "true" <-> cls_active btn = true) /\
  (aria_pressed btn = Some "false" <-> cls_active btn = false).

(** The state every run of [updateButtonsUI] leaves behind. *)
Definition Synced (cats : list (option string)) (q : Page) : Prop :=
  exists group,
    filterGroup q = Some group /\
    map data_cat group = cats /\
    Forall (InStep (activeCategory q)) group.

(** A filter block in which two buttons name the same category. *)
Definition twinGroup : list Button :=
  [ mkButton (Some "category-904") true;
    mkButton (Some "category-3") false;
    mkButton (Some "3") false ].

(** The sources to keep, in the words of the source guard: every source
    that does not point at the feed, and of those that do, the first. *)
Definition notFeed (s : EventSource) : bool := negb (urlIsFeed s).

Fixpoint retainFirstFeed (l : list EventSource) : list EventSource :=
  match l with
  | [] => []
  | s :: r => if urlIsFeed s then s :: filter notFeed r else s :: retainFirstFeed r
  end.

(** Whether [x] is one of the source objects of [l]. *)
Definition sourceIn (l : list EventSource) (x : EventSource) : bool :=
  existsb (fun s => internalId x =? internalId s) l.

(** A widget to which the feed was added three times, next to a source
    of another kind. *)
Definition crowdedSources : list EventSource :=
  [ {| internalId := 0; src_id := "main-feed"; url := Some FEED_URL |};
    {| internalId := 1; src_id := "holidays"; url := None |};
    {| internalId := 2; src_id := ""; url := Some FEED_URL |};
    {| internalId := 3; src_id := ""; url := Some FEED_URL |} ].

(** What can happen on a page over its lifetime: Drupal attaches the
    behaviour (again), or one of the [Action]s takes place. *)
Inductive PageEvent : Type :=
| Attach (context : nat -> bool)
| Act (a : Action).

Definition happen (p : Page) (e : PageEvent) : Page :=
  match e with
  | Attach context => fst (attach context p)
  | Act a => step p a
  end.

Definition history (p : Page) (es : list PageEvent) : Page := fold_left happen es p.

(** The widget instance and the count of constructions are the same in
    both pages. *)
Definition SameInstance (p q : Page) : Prop :=
  fcCalendarInstance q = fcCalendarInstance p /\ constructed q = constructed p.

(** Everything of the page but the widget's events, sources and removal
    log is the same in both pages. *)
Definition SameOutsideWidget (p q : Page) : Prop :=
  fcCalendarInstance q = fcCalendarInstance p /\
  calendarNodes q = calendarNodes p /\
  filterGroup q = filterGroup p /\
  activeCategoryRaw q = activeCategoryRaw p /\
  activeCategory q = activeCategory p /\
  buttonsWired q = buttonsWired p /\
  constructed q = constructed p /\
  observers q = observers p /\
  consoleWarnings q = consoleWarnings p.

(** A filter block with a button that has no [data-cat] and one whose
    [data-cat] is empty. *)
Definition bareGroup : list Button :=
  [ mkButton (Some "category-904") false;
    mkButton None true;
    mkButton (Some "") false ].

(** What a click listener does once it has read the button's category:
    store it, bring the buttons in step, filter the events. *)
Definition selectCategory (raw : string) (p : Page) : Page :=
  applyFilter (updateButtonsUI (setActiveFrom raw p)).

(** The closure variables agree: the active category is the key of the raw
    one, and the raw one is not empty. *)
Definition ClosureOk (p : Page) : Prop :=
  activeCategory p = norm (JStr (activeCategoryRaw p)) /\
  String.eqb (activeCategoryRaw p) "" = false.

(** A feed record that carries its category under [extendedProps.type]. *)
Definition typedRecord : EventObj :=
  {| extendedProps := Some {| category := JUndefined; Category := JNull; type := JNum 904 |};
     raw_category := JStr "category-3";
     className := JStr "category-8";
     display := JUndefined;
     sourceId := 0 |}.

(** An event's [display] is in line with the active category [A]. *)
Definition DisplayInLine (A : string) (ev : EventObj) : Prop :=
  (display ev = JStr "auto" <-> Shown A ev) /\
  (display ev = JStr "none" <-> ~ Shown A ev).

(** A filter block whose markup marks two buttons active. *)
Definition doubleActiveGroup : list Button :=
  [ mkButton (Some "category-3") false;
    mkButton (Some "category-8") true;
    mkButton (Some "category-904") true;
    mkButton (Some "8") false ].

(** The callback of the MutationObserver that [attach] registers when the
    filter block is missing: [if (wireButtonsIfPresent()) obs.disconnect()].
    It runs while its observer is connected, so that disconnecting takes
    one off the count of connected observers. *)
Definition onMutation (p : Page) : Page :=
  let '(q, wiredNow) := wireButtonsIfPresent p in
  if wiredNow then set_observers (Nat.pred (observers q)) q else q.

(** A button carries the click listener of the script exactly when it is
    marked as wired, and then only one. *)
Definition Tidy (btn : Button) : Prop :=
  clickListeners btn = if dataset_wired btn then 1 else 0.

Definition TidyPage (p : Page) : Prop :=
  match filterGroup p with
  | Some group => Forall Tidy group
  | None => True
  end.

(** Markup that comes from outside has tidy buttons. *)
Definition TidyEvent (e : PageEvent) : Prop :=
  match e with
  | Act (SetMarkup (Some group)) => Forall Tidy group
  | _ => True
  end.

(** ** Styling around the widget

    The elements [#loading] and [#script-warning] (each may be missing from
    the document) and the calendar container, as far as the [loading]
    callback and the [failure] callback of the feed touch them: the inline
    [display] of the first two, [None] when the element is missing, and the
    inline [visibility] of the container. *)
Record Chrome : Type := {
  loadingDisplay : option string;
  calVisibility : string;
  warningDisplay : option string
}.

(** The styling part of [loading(isLoading)]. *)
Definition loadingStyle (isLoading : bool) (c : Chrome) : Chrome :=
  {| loadingDisplay :=
       match loadingDisplay c with
       | Some _ => Some (if isLoading then "block" else "none")
       | None => None
       end;
     calVisibility := if isLoading then "hidden" else "visible";
     warningDisplay := warningDisplay c |}.

(** [failure()] of the feed source. *)
Definition failure (c : Chrome) : Chrome :=
  {| loadingDisplay := loadingDisplay c;
     calVisibility := calVisibility c;
     warningDisplay :=
       match warningDisplay c with
       | Some _ => Some "block"
       | None => None
       end |}.

(** What the widget tells the script about its fetches. *)
Inductive FetchSignal : Type :=
| LoadingSignal (isLoading : bool)
| FailureSignal.

Definition signal (c : Chrome) (s : FetchSignal) : Chrome :=
  match s with
  | LoadingSignal isLoading => loadingStyle isLoading c
  | FailureSignal => failure c
  end.

(** The flag of the last [loading] call among the signals, if any. *)
Fixpoint lastLoading (l : list FetchSignal) : option bool :=
  match l with
  | [] => None
  | s :: r =>
      match lastLoading r with
      | Some b => Some b
      | None => match s with
                | LoadingSignal b => Some b
                | FailureSignal => None
                end
      end
  end.

Definition isFailure (s : FetchSignal) : bool :=
  match s with
  | FailureSignal => true
  | LoadingSignal _ => false
  end.

(** ** The first variant of the behaviour

    The first [calendarWithSingleFilter] of the file: no normalisation, a
    filter that the [loading] callback applies once, listeners added to the
    buttons found when [attach] runs. *)
Module V1.

(** The closure of [attach] and the widget's events.  [filterButtons] is
    the list that [querySelectorAll] returned when [attach] ran;
    [activeCategory] is a string or [null] ([None]); [didInitialFilter] is
    [calendar.__didInitialFilter]. *)
Record State : Type := {
  filterButtons : list Button;
  activeCategory : option string;
  didInitialFilter : bool;
  events : list EventObj
}.

(** [a === b] for two values that are strings or [null]. *)
Definition sameAttr (a b : option string) : bool :=
  match a, b with
  | Some x, Some y => String.eqb x y
  | None, None => true
  | _, _ => false
  end.

(** The body of the [forEach] of [updateButtonsUI] for one button. *)
Definition syncButton (active : option string) (btn : Button) : Button :=
  let cat := data_cat btn in
  let isOn := sameAttr cat active in
  {| data_cat := data_cat btn;
     cls_active := isOn;
     cls_btn_primary := isOn;
     cls_btn_outline_primary := negb isOn;
     aria_pressed := Some (if isOn then "true" else "false");
     dataset_wired := dataset_wired btn;
     clickListeners := clickListeners btn |}.

Definition updateButtonsUI (s : State) : State :=
  {| filterButtons := map (syncButton (activeCategory s)) (filterButtons s);
     activeCategory := activeCategory s;
     didInitialFilter := didInitialFilter s;
     events := events s |}.

(** [ev.extendedProps && String(ev.extendedProps.category).trim()]: [None]
    is the [undefined] of an absent [extendedProps]. *)
Definition eventCat (ev : EventObj) : option string :=
  match extendedProps ev with
  | None => None
  | Some ep => Some (trim (ToString (category ep)))
  end.

(** [activeCategory === 'all' || activeCategory === cat]: [null] is not
    [undefined], and a string equals a string with the same characters. *)
Definition shows (active : option string) (ev : EventObj) : bool :=
  sameAttr active (Some "all")
  || match active, eventCat ev with
     | Some a, Some c => String.eqb a c
     | _, _ => false
     end.

Definition applyFilter (s : State) : State :=
  {| filterButtons := filterButtons s;
     activeCategory := activeCategory s;
     didInitialFilter := didInitialFilter s;
     events := map (fun ev => setDisplay (shows (activeCategory s) ev) ev) (events s) |}.

Definition set_events (evs : list EventObj) (s : State) : State :=
  {| filterButtons := filterButtons s;
     activeCategory := activeCategory s;
     didInitialFilter := didInitialFilter s;
     events := evs |}.

(** [loading(isLoading)], without the styling. *)
Definition loading (isLoading : bool) (s : State) : State :=
  if negb isLoading && negb (didInitialFilter s)
  then applyFilter {| filterButtons := filterButtons s;
                      activeCategory := activeCategory s;
                      didInitialFilter := true;
                      events := events s |}
  else s.

(** The click listener of the button at position [i]. *)
Definition clickListener (i : nat) (s : State) : State :=
  match nth_error (filterButtons s) i with
  | None => s
  | Some btn =>
      applyFilter
        (updateButtonsUI
           {| filterButtons := filterButtons s;
              activeCategory := Some (orAll (data_cat btn));
              didInitialFilter := didInitialFilter s;
              events := events s |})
  end.

Definition addListener (btn : Button) : Button :=
  {| data_cat := data_cat btn;
     cls_active := cls_active btn;
     cls_btn_primary := cls_btn_primary btn;
     cls_btn_outline_primary := cls_btn_outline_primary btn;
     aria_pressed := aria_pressed btn;
     dataset_wired := dataset_wired btn;
     clickListeners := S (clickListeners btn) |}.

(** The closure [attach] leaves once it has found its [#calendar]:
    [group] is the filter block it found, if any. *)
Definition start (group : option (list Button)) : State :=
  let filterButtons := match group with Some g => g | None => [] end in
  let defaultBtn := match group with Some g => find cls_active g | None => None end in
  let activeCategory := match defaultBtn with
                        | Some btn => data_cat btn
                        | None => Some "all"
                        end in
  updateButtonsUI
    {| filterButtons := map addListener filterButtons;
       activeCategory := activeCategory;
       didInitialFilter := false;
       events := [] |}.

End V1.

(** ** The second variant of the behaviour

    It has the helpers of the last variant word for word; its [loading]
    callback styles only, and its [attach] ends after the wiring. *)
Module V2.

Definition attach (context : nat -> bool) (p : Page) : Page * JsValue :=
  if isSome (fcCalendarInstance p) then (p, JUndefined)
  else
    let '(calEls, p0) := once context p in
    match calEls with
    | [] => (p0, JUndefined)
    | el :: _ =>
        if 1 <? List.length (calendarNodes p0)
        then (set_consoleWarnings (S (consoleWarnings p0)) p0, JUndefined)
        else
          let p1 := set_buttonsWired false (setActiveFrom (orAll (readDefaultFromMarkup p0)) p0) in
          let p2 := newCalendar p1 in
          let p3 := set_fcCalendarInstance (Some (constructed p2)) p2 in
          let '(p4, wiredNow) := wireButtonsIfPresent p3 in
          (if wiredNow then p4 else set_observers (S (observers p4)) p4, JUndefined)
    end.

End V2.

(** An event whose category is the number 904, with surrounding space in
    its text form. *)
Definition spacedRecord : EventObj :=
  {| extendedProps := Some {| category := JStr " category-904 "; Category := JUndefined;
                              type := JUndefined |};
     raw_category := JUndefined;
     className := JUndefined;
     display := JUndefined;
     sourceId := 0 |}.

(** ** Contracts for the category of an event

    Written from the words of the filter's contract, not from the script's
    lookups. *)

(** [Number.MAX_SAFE_INTEGER]. *)
Definition MAX_SAFE_INTEGER : Z := 9007199254740991.

(** The event carries the category [c] under [extendedProps]: [c] is the
    first of the properties [category], [Category], [type] that is neither
    [null] nor [undefined]. *)
Inductive CarriesCategory (ev : EventObj) : JsValue -> Prop :=
| UnderCategory ep :
    extendedProps ev = Some ep ->
    looseNull (category ep) = false ->
    CarriesCategory ev (category ep)
| UnderCapitalCategory ep :
    extendedProps ev = Some ep ->
    looseNull (category ep) = true ->
    looseNull (Category ep) = false ->
    CarriesCategory ev (Category ep)
| UnderType ep :
    extendedProps ev = Some ep ->
    looseNull (category ep) = true ->
    looseNull (Category ep) = true ->
    looseNull (type ep) = false ->
    CarriesCategory ev (type ep).

(** The event carries no category under [extendedProps]. *)
Definition CarriesNothing (ev : EventObj) : Prop :=
  forall ep, extendedProps ev = Some ep ->
    looseNull (category ep) = true /\
    looseNull (Category ep) = true /\
    looseNull (type ep) = true.

(** An event object is to be shown under [A]: [A] is ["all"], or the key of
    the category it carries under [extendedProps] is [A]; an event without
    such a category has the empty key. *)
Definition ShownByContract (A : string) (ev : EventObj) : Prop :=
  A = "all" \/
  (exists c, CarriesCategory ev c /\ norm c = A) \/
  (CarriesNothing ev /\ A = "").

(** A feed record carries the category [c]: the one under [extendedProps]
    if there is one, else its top-level [category] if that is neither
    [null] nor [undefined], else its [className], whatever that is. *)
Inductive RawCarries (raw : EventObj) : JsValue -> Prop :=
| RawUnderExtendedProps c :
    CarriesCategory raw c -> RawCarries raw c
| RawTopLevel :
    CarriesNothing raw ->
    looseNull (raw_category raw) = false ->
    RawCarries raw (raw_category raw)
| RawClassName :
    CarriesNothing raw ->
    looseNull (raw_category raw) = true ->
    RawCarries raw (className raw).

(** A feed record is to be shown under [A]. *)
Definition RawShownByContract (A : string) (raw : EventObj) : Prop :=
  A = "all" \/ exists c, RawCarries raw c /\ norm c = A.

(** Event objects with the category 904 under [extendedProps.category],
    with the category 3 under [extendedProps.Category], and without any
    category. *)
Definition event904 : EventObj :=
  {| extendedProps := Some {| category := JNum 904; Category := JUndefined; type := JUndefined |};
     raw_category := JUndefined;
     className := JUndefined;
     display := JUndefined;
     sourceId := 0 |}.

Definition event3 : EventObj :=
  {| extendedProps := Some {| category := JNull; Category := JStr "Category-3"; type := JStr "x" |};
     raw_category := JUndefined;
     className := JUndefined;
     display := JUndefined;
     sourceId := 0 |}.

Definition plainEvent : EventObj :=
  {| extendedProps := None;
     raw_category := JUndefined;
     className := JUndefined;
     display := JUndefined;
     sourceId := 0 |}.

(** Some [#calendar] element lies in the context and has not been handed
    out by [once] yet. *)
Definition HasFresh (context : nat -> bool) (nodes : list CalendarEl) : Prop :=
  exists i el,
    nth_error nodes i = Some el /\ context i = true /\ once_fc_init el = false.


(** The first variant's rule, in words: an event is to be shown under the
    active category when that is ["all"], or when the event has
    [extendedProps] and the active category is the trimmed text of the
    [category] found there. *)
Definition V1ShownByContract (active : option string) (ev : EventObj) : Prop :=
  active = Some "all" \/
  exists ep, extendedProps ev = Some ep /\ active = Some (trim (ToString (category ep))).

(** A state of the first variant before the first fetch has ended, with
    events in the widget. *)
Definition V1sample : V1.State :=
  V1.set_events [event904; spacedRecord; plainEvent] (V1.start (Some headerGroup)).

(** * Properties *)

(** ** Characters and strings *)

Ltac by_cases_on_char c :=
  destruct c as [[|] [|] [|] [|] [|] [|] [|] [|]]; vm_compute; try reflexivity; try discriminate.

Lemma isWhiteSpace_lowerChar (c : ascii) : isWhiteSpace (lowerChar c) = isWhiteSpace c.
Proof. by_cases_on_char c. Qed.

Lemma isDigit_lowerChar (c : ascii) : isDigit (lowerChar c) = isDigit c.
Proof. by_cases_on_char c. Qed.

Lemma lowerChar_idem (c : ascii) : lowerChar (lowerChar c) = lowerChar c.
Proof. by_cases_on_char c. Qed.

Lemma digit_not_space (c : ascii) : isDigit c = true -> isWhiteSpace c = false.
Proof. by_cases_on_char c. Qed.

Lemma digit_lower_fixed (c : ascii) : isDigit c = true -> lowerChar c = c.
Proof. by_cases_on_char c. Qed.

Lemma toLowerCase_idem (s : string) : toLowerCase (toLowerCase s) = toLowerCase s.
Proof.
  induction s as [|c r IH]; simpl; [reflexivity|].
  now rewrite lowerChar_idem, IH.
Qed.

Lemma toLowerCase_trimStart (s : string) :
  toLowerCase (trimStart s) = trimStart (toLowerCase s).
Proof.
  induction s as [|c r IH]; simpl; [reflexivity|].
  rewrite isWhiteSpace_lowerChar.
  destruct (isWhiteSpace c); [exact IH | reflexivity].
Qed.

Lemma toLowerCase_trimEnd (s : string) :
  toLowerCase (trimEnd s) = trimEnd (toLowerCase s).
Proof.
  induction s as [|c r IH]; simpl; [reflexivity|].
  rewrite <- IH, isWhiteSpace_lowerChar.
  destruct (trimEnd r) as [|c' r'] eqn:E; simpl.
  - destruct (isWhiteSpace c); reflexivity.
  - reflexivity.
Qed.

Lemma toLowerCase_trim (s : string) : toLowerCase (trim s) = trim (toLowerCase s).
Proof. unfold trim. now rewrite toLowerCase_trimEnd, toLowerCase_trimStart. Qed.

Lemma trimEnd_cons (c : ascii) (r : string) :
  isWhiteSpace c = false -> trimEnd (String c r) = String c (trimEnd r).
Proof. intros H; simpl; rewrite H; destruct (trimEnd r); reflexivity. Qed.

Lemma trimEnd_idem (s : string) : trimEnd (trimEnd s) = trimEnd s.
Proof.
  induction s as [|c r IH]; simpl; [reflexivity|].
  destruct (trimEnd r) as [|c' r'] eqn:E.
  - destruct (isWhiteSpace c) eqn:W; simpl; [reflexivity | now rewrite W].
  - change (match trimEnd (String c' r') with
            | "" => if isWhiteSpace c then "" else String c ""
            | String a b => String c (String a b)
            end = String c (String c' r')).
    now rewrite IH.
Qed.

Lemma trimStart_headed (s : string) : headed (trimStart s) = true.
Proof.
  induction s as [|c r IH]; simpl; [reflexivity|].
  destruct (isWhiteSpace c) eqn:W; [exact IH | simpl; now rewrite W].
Qed.

Lemma headed_trimStart (s : string) : headed s = true -> trimStart s = s.
Proof.
  destruct s as [|c r]; simpl; [reflexivity|].
  destruct (isWhiteSpace c); [discriminate | reflexivity].
Qed.

Lemma headed_trimEnd (s : string) : headed s = true -> headed (trimEnd s) = true.
Proof.
  destruct s as [|c r]; [reflexivity|].
  cbn [headed]. intros H.
  destruct (isWhiteSpace c) eqn:W; [discriminate|].
  rewrite (trimEnd_cons _ _ W). simpl. now rewrite W.
Qed.

Lemma trim_idem (s : string) : trim (trim s) = trim s.
Proof.
  unfold trim.
  rewrite (headed_trimStart (trimEnd (trimStart s))).
  - apply trimEnd_idem.
  - apply headed_trimEnd, trimStart_headed.
Qed.

Lemma blank_trimStart (s : string) : blank s = true -> trimStart s = "".
Proof.
  induction s as [|c r IH]; simpl; [reflexivity|].
  unfold blank in *; simpl. destruct (isWhiteSpace c); simpl; [exact IH | discriminate].
Qed.

Lemma blank_trim (s : string) : blank s = true -> trim s = "".
Proof. intros H; unfold trim; now rewrite (blank_trimStart _ H). Qed.

(** ** Runs of digits *)

Lemma allDigits_digitRun (s : string) : allDigits (digitRun s) = true.
Proof.
  induction s as [|c r IH]; simpl; [reflexivity|].
  destruct (isDigit c) eqn:D; simpl; [|reflexivity].
  unfold allDigits in *; simpl. now rewrite D, IH.
Qed.

Lemma digitRun_allDigits (s : string) : allDigits s = true -> digitRun s = s.
Proof.
  induction s as [|c r IH]; simpl; [reflexivity|].
  unfold allDigits in *; simpl.
  destruct (isDigit c); simpl; [|discriminate].
  intros H; now rewrite (IH H).
Qed.

Lemma allDigits_trim (s : string) : allDigits s = true -> trim s = s.
Proof.
  unfold trim. intros H.
  assert (Hs : trimStart s = s).
  { destruct s as [|c r]; [reflexivity|].
    unfold allDigits in H; simpl in H. apply andb_prop in H as [D _].
    simpl. now rewrite (digit_not_space _ D). }
  rewrite Hs. clear Hs.
  induction s as [|c r IH]; [reflexivity|].
  unfold allDigits in *; simpl in H. apply andb_prop in H as [D R].
  rewrite (trimEnd_cons _ _ (digit_not_space _ D)). now rewrite (IH R).
Qed.

Lemma allDigits_toLowerCase (s : string) : allDigits s = true -> toLowerCase s = s.
Proof.
  induction s as [|c r IH]; simpl; [reflexivity|].
  unfold allDigits in *; simpl. intros H. apply andb_prop in H as [D R].
  now rewrite (digit_lower_fixed _ D), (IH R).
Qed.

Lemma allDigits_not_all (s : string) : allDigits s = true -> String.eqb s "all" = false.
Proof.
  destruct s as [|c r]; [reflexivity|].
  unfold allDigits; simpl. intros H. apply andb_prop in H as [D _].
  destruct (Ascii.eqb c "a") eqn:E; [|reflexivity].
  apply Ascii.eqb_eq in E. subst c. discriminate D.
Qed.

Lemma matchDigits_allDigits (s : string) :
  allDigits s = true -> s <> "" -> matchDigits s = Some s.
Proof.
  destruct s as [|c r]; [congruence|].
  unfold allDigits; simpl. intros H _. apply andb_prop in H as [D R].
  rewrite D. now rewrite (digitRun_allDigits _ R).
Qed.

Lemma matchDigits_Some (s m : string) :
  matchDigits s = Some m -> allDigits m = true /\ m <> "".
Proof.
  induction s as [|c r IH]; simpl; [discriminate|].
  destruct (isDigit c) eqn:D; [|exact IH].
  intros [= <-]. split; [|discriminate].
  unfold allDigits; simpl. rewrite D. apply allDigits_digitRun.
Qed.

Lemma matchDigits_None (s : string) : matchDigits s = None <-> noDigits s = true.
Proof.
  induction s as [|c r IH]; simpl; [tauto|].
  unfold noDigits in *; simpl.
  destruct (isDigit c); simpl; [split; discriminate | exact IH].
Qed.

Lemma digitRun_dropDigits (s : string) : s = digitRun s ++ dropDigits s.
Proof.
  induction s as [|c r IH]; simpl; [reflexivity|].
  destruct (isDigit c); simpl; [now rewrite <- IH | reflexivity].
Qed.

Lemma dropDigits_no_run (s : string) : digitRun (dropDigits s) = "".
Proof.
  induction s as [|c r IH]; simpl; [reflexivity|].
  destruct (isDigit c) eqn:D; [exact IH | simpl; now rewrite D].
Qed.

Lemma digitRun_app (a b : string) :
  allDigits a = true -> digitRun (a ++ b) = a ++ digitRun b.
Proof.
  induction a as [|c r IH]; simpl; [reflexivity|].
  unfold allDigits in *; simpl. intros H. apply andb_prop in H as [D R].
  now rewrite D, (IH R).
Qed.

Lemma append_empty_r (s : string) : s ++ "" = s.
Proof. induction s as [|c r IH]; simpl; [reflexivity | now rewrite IH]. Qed.

Lemma matchDigits_FirstDigitRun (s m : string) :
  matchDigits s = Some m <-> FirstDigitRun s m.
Proof.
  split.
  - revert m. induction s as [|c r IH]; simpl; intros m; [discriminate|].
    destruct (isDigit c) eqn:D.
    + intros [= <-]. exists "", (dropDigits r). simpl.
      repeat split.
      * now rewrite <- digitRun_dropDigits.
      * unfold allDigits; simpl. rewrite D. apply allDigits_digitRun.
      * discriminate.
      * apply dropDigits_no_run.
    + intros H. destruct (IH m H) as (pre & post & -> & Hpre & Hm & Hne & Hpost).
      exists (String c pre), post. simpl. repeat split; try assumption.
      unfold noDigits in *; simpl. now rewrite D.
  - intros (pre & post & -> & Hpre & Hm & Hne & Hpost).
    induction pre as [|c pre IH]; simpl.
    + destruct m as [|d m']; [congruence|]. simpl.
      unfold allDigits in Hm; simpl in Hm. apply andb_prop in Hm as [D R].
      rewrite D. f_equal. f_equal.
      rewrite (digitRun_app _ _ R), Hpost. apply append_empty_r.
    + unfold noDigits in Hpre; simpl in Hpre. apply andb_prop in Hpre as [D R].
      apply negb_true_iff in D. rewrite D. now apply IH.
Qed.

(** ** [norm]: idempotence and contract *)

Lemma norm_digits (m : string) : allDigits m = true -> m <> "" -> norm (JStr m) = m.
Proof.
  intros Hm Hne. unfold norm; simpl.
  rewrite (allDigits_trim _ Hm), (allDigits_toLowerCase _ Hm),
    (allDigits_not_all _ Hm), (matchDigits_allDigits _ Hm Hne).
  reflexivity.
Qed.

Lemma norm_idempotent (v : JsValue) : norm (JStr (norm v)) = norm v.
Proof.
  unfold norm at 2 3.
  destruct (looseNull v); [reflexivity|].
  set (key := toLowerCase (trim (ToString v))).
  destruct (String.eqb key "all") eqn:E; [reflexivity|].
  destruct (matchDigits key) as [m|] eqn:M.
  - destruct (matchDigits_Some _ _ M). now apply norm_digits.
  - unfold norm; simpl.
    assert (K : toLowerCase (trim key) = key).
    { unfold key. now rewrite toLowerCase_trim, toLowerCase_idem,
        <- toLowerCase_trim, trim_idem. }
    now rewrite K, E, M.
Qed.

Lemma NormSpec_norm (v : JsValue) : NormSpec v (norm v).
Proof.
  unfold norm.
  destruct (looseNull v) eqn:L; [now apply NormNull|].
  destruct (String.eqb _ "all") eqn:E.
  - apply NormAll; [assumption | now apply String.eqb_eq].
  - apply String.eqb_neq in E.
    destruct (matchDigits _) as [m|] eqn:M.
    + apply NormDigits; try assumption. now apply matchDigits_FirstDigitRun.
    + apply NormText; try assumption. now apply matchDigits_None.
Qed.

(** The contract determines the result: it admits no value but the one
    [norm] returns. *)
Lemma NormSpec_unique (v : JsValue) (r : string) : NormSpec v r -> norm v = r.
Proof.
  intros H. unfold norm.
  destruct H as [v L | v L B | v L A | v r L A R | v L A D]; rewrite L;
    try reflexivity.
  - now rewrite (blank_trim _ B).
  - now rewrite A.
  - apply String.eqb_neq in A. rewrite A.
    apply matchDigits_FirstDigitRun in R. now rewrite R.
  - apply String.eqb_neq in A. rewrite A.
    apply matchDigits_None in D. now rewrite D.
Qed.

(** C4.  [norm] is idempotent: normalising a normalised key gives the key
    back, for every input; and it is defined on every input, among them
    [null], the empty string, ["ALL"], ["category-904"], the number 904 and
    ["abc"], for which it returns the strings below. *)
Theorem norm_idempotent_total :
  (forall v : JsValue, norm (JStr (norm v)) = norm v) /\
  (forall v : JsValue, exists key : string, norm v = key) /\
  norm JNull = "" /\
  norm (JStr "") = "" /\
  norm (JStr "ALL") = "all" /\
  norm (JStr "category-904") = "904" /\
  norm (JNum 904) = "904" /\
  norm (JStr "abc") = "abc".
Proof.
  split; [exact norm_idempotent|].
  split; [intros v; now exists (norm v)|].
  repeat split; reflexivity.
Qed.

(** C5.  [norm] meets its contract on every input: [null] (and
    [undefined]) and blank strings give the empty key; a value whose
    trimmed, lower-cased text is ["all"] gives ["all"]; otherwise a text
    with a digit gives its first run of digits, and a text without digits
    gives the trimmed, lower-cased text itself.  ["category-904"], ["904"]
    and the number 904 all give ["904"]. *)
Theorem norm_meets_contract :
  (forall v : JsValue, NormSpec v (norm v)) /\
  norm JNull = "" /\
  norm (JStr "") = "" /\
  norm (JStr "   ") = "" /\
  norm (JStr " All ") = "all" /\
  norm (JStr "category-904") = "904" /\
  norm (JStr "904") = "904" /\
  norm (JNum 904) = "904" /\
  norm (JStr " Training ") = "training".
Proof.
  split; [exact NormSpec_norm|].
  repeat split; reflexivity.
Qed.

(** ** Visibility *)

Lemma eqb_all_or (A key : string) :
  String.eqb A "all" || String.eqb key A = true <-> A = "all" \/ key = A.
Proof.
  rewrite orb_true_iff, !String.eqb_eq. tauto.
Qed.

Lemma filterEvent_display (A : string) (ev : EventObj) :
  sameButDisplay ev (filterEvent A ev) /\
  (display (filterEvent A ev) = JStr "auto" <-> Shown A ev) /\
  (display (filterEvent A ev) = JStr "none" <-> ~ Shown A ev).
Proof.
  unfold filterEvent, Shown, eventKey, sameButDisplay. simpl.
  pose proof (eqb_all_or A (norm (nullish (extendedCategory ev) (JStr "")))) as H.
  destruct (String.eqb A "all" || String.eqb _ A);
    (split; [tauto|]); split; split; intros G; try discriminate G.
  - now apply H.
  - reflexivity.
  - exfalso. now apply G, H.
  - apply H in G. discriminate G.
  - intros S. apply H in S. discriminate S.
  - reflexivity.
Qed.

Lemma norm_empty : norm (JStr "") = "".
Proof. reflexivity. Qed.

Lemma CarriesCategory_extendedCategory (ev : EventObj) (c : JsValue) :
  CarriesCategory ev c <-> extendedCategory ev = c /\ looseNull c = false.
Proof.
  unfold extendedCategory, nullish. split.
  - intros [ep E L | ep E L1 L2 | ep E L1 L2 L3]; rewrite E.
    + rewrite L. now rewrite L.
    + rewrite L1, L2. now split.
    + rewrite L1, L2, L3. now split.
  - intros [E L]. destruct (extendedProps ev) as [ep|] eqn:P.
    + revert E. destruct (looseNull (category ep)) eqn:L1.
      * destruct (looseNull (Category ep)) eqn:L2; intros E; subst c.
        -- now apply UnderType with (ep := ep).
        -- now apply UnderCapitalCategory with (ep := ep).
      * rewrite L1. intros E. subst c. now apply UnderCategory with (ep := ep).
    + subst c. discriminate L.
Qed.

Lemma CarriesNothing_extendedCategory (ev : EventObj) :
  CarriesNothing ev <-> looseNull (extendedCategory ev) = true.
Proof.
  unfold CarriesNothing, extendedCategory, nullish. split.
  - intros H. destruct (extendedProps ev) as [ep|]; [|reflexivity].
    destruct (H ep eq_refl) as (L1 & L2 & L3). now rewrite L1, L2, L3.
  - intros H ep E. rewrite E in H. revert H.
    destruct (looseNull (category ep)) eqn:L1.
    + destruct (looseNull (Category ep)) eqn:L2; intros H.
      * now repeat split.
      * congruence.
    + rewrite L1. intros H. congruence.
Qed.

(** The contract for event objects and the key the script computes say
    the same. *)
Lemma ShownByContract_Shown (A : string) (ev : EventObj) :
  ShownByContract A ev <-> Shown A ev.
Proof.
  unfold ShownByContract, Shown, eventKey, nullish.
  destruct (looseNull (extendedCategory ev)) eqn:L.
  - rewrite norm_empty. split.
    + intros [H | [(c & C & _) | (_ & H)]]; [now left | | now right].
      apply CarriesCategory_extendedCategory in C as [E Lc]. congruence.
    + intros [H | H]; [now left|]. right. right.
      split; [now apply CarriesNothing_extendedCategory | now symmetry].
  - split.
    + intros [H | [(c & C & N) | (H & _)]]; [now left | | ].
      * right. apply CarriesCategory_extendedCategory in C as [E _]. now rewrite E.
      * apply CarriesNothing_extendedCategory in H. congruence.
    + intros [H | H]; [now left|]. right. left.
      exists (extendedCategory ev). split; [|exact H].
      now apply CarriesCategory_extendedCategory.
Qed.



Lemma eventDataTransform_display (raw : EventObj) (p : Page) :
  let A := activeCategory (fst (eventDataTransform raw p)) in
  sameButDisplay raw (snd (eventDataTransform raw p)) /\
  (display (snd (eventDataTransform raw p)) = JStr "auto" <-> A = "all" \/ rawKey raw = A) /\
  (display (snd (eventDataTransform raw p)) = JStr "none" <-> ~ (A = "all" \/ rawKey raw = A)).
Proof.
  unfold eventDataTransform, rawKey, sameButDisplay. simpl.
  set (q := adoptMarkup (readDefaultFromMarkup p) p).
  pose proof (eqb_all_or (activeCategory q)
                (norm (nullish (nullish (extendedCategory raw) (raw_category raw))
                         (className raw)))) as H.
  destruct (String.eqb (activeCategory q) "all" || String.eqb _ (activeCategory q));
    (split; [tauto|]); split; split; intros G; try discriminate G.
  - now apply H.
  - reflexivity.
  - exfalso. now apply G, H.
  - apply H in G. discriminate G.
  - intros S. apply H in S. discriminate S.
  - reflexivity.
Qed.



(** C2.  A feed record that carries its category under [className] only,
    with the header's markup (active category 904): the pre-render
    transform marks it ['auto'], and the re-application after the load and
    the one after a click on the active button both mark the same event
    ['none']. *)
Theorem className_event_paths_diverge :
  let shownFirst := snd (eventDataTransform classNameRecord headerPage) in
  let p := set_events [shownFirst] (fst (eventDataTransform classNameRecord headerPage)) in
  activeCategory headerPage = "904" /\
  activeCategory p = "904" /\
  display shownFirst = JStr "auto" /\
  map display (events (loading false p)) = [JStr "none"] /\
  map display (events (click 0 p)) = [JStr "none"] /\
  activeCategory (loading false p) = "904" /\
  activeCategory (click 0 p) = "904".
Proof. vm_compute. repeat split; reflexivity. Qed.

(** ** Where the active category comes from *)

Lemma orAll_nonempty (a : option string) : String.eqb (orAll a) "" = false.
Proof.
  destruct a as [s|]; simpl; [|reflexivity].
  destruct (String.eqb s "") eqn:E; [reflexivity | exact E].
Qed.

Lemma readDefaultFromMarkup_present (p : Page) (group : list Button) :
  filterGroup p = Some group ->
  exists fromMarkup,
    readDefaultFromMarkup p = Some fromMarkup /\ String.eqb fromMarkup "" = false.
Proof.
  intros G. unfold readDefaultFromMarkup, getFilterGroup. rewrite G.
  destruct (querySelectorActive group) as [btn|].
  - exists (orAll (data_cat btn)). split; [reflexivity | apply orAll_nonempty].
  - exists "all". split; reflexivity.
Qed.

Lemma adoptMarkup_truthy (raw : string) (p : Page) :
  String.eqb raw "" = false -> adoptMarkup (Some raw) p = setActiveFrom raw p.
Proof. intros H; unfold adoptMarkup; now rewrite H. Qed.

(** Removing sources touches the widget only. *)
Lemma removeAll_frame (l : list EventSource) (p : Page) :
  SameOutsideWidget p (fold_left (fun q s => sourceRemove s q) l p).
Proof.
  revert p. induction l as [|s l IH]; intros p; simpl.
  - repeat split.
  - destruct (IH (sourceRemove s p)) as (H1 & H2 & H3 & H4 & H5 & H6 & H7 & H8 & H9).
    repeat split; etransitivity; eauto.
Qed.

Lemma ensureSingleEventSource_frame (p : Page) :
  SameOutsideWidget p (ensureSingleEventSource p).
Proof.
  unfold ensureSingleEventSource.
  destruct (1 <? _); [apply removeAll_frame | repeat split].
Qed.

Lemma wireButtonsIfPresent_present (p : Page) (group : list Button) :
  filterGroup p = Some group ->
  let q := fst (wireButtonsIfPresent p) in
  let A := if buttonsWired p
           then activeCategory p
           else norm (JStr (orAll (readDefaultFromMarkup p))) in
  snd (wireButtonsIfPresent p) = true /\
  activeCategory q = A /\
  buttonsWired q = true /\
  filterGroup q = Some (map (syncButton A) (map wireButton group)).
Proof.
  intros G. unfold wireButtonsIfPresent, getFilterGroup. rewrite G. simpl.
  destruct (readDefaultFromMarkup_present p group G) as (m & R & T).
  destruct (buttonsWired p); simpl.
  - repeat split.
  - rewrite R, (adoptMarkup_truthy _ _ T). simpl. rewrite T. repeat split.
Qed.

Lemma loading_done_active (p : Page) :
  activeCategory (loading false p) = activeCategory (fst (wireButtonsIfPresent p)) /\
  filterGroup (loading false p) = filterGroup (fst (wireButtonsIfPresent p)).
Proof.
  unfold loading, applyFilter. simpl.
  destruct (ensureSingleEventSource_frame (fst (wireButtonsIfPresent p)))
    as (_ & _ & H3 & _ & H5 & _).
  split; assumption.
Qed.

(** ** Single selection *)

Lemma syncButton_InStep (A : string) (btn : Button) : InStep A (syncButton A btn).
Proof.
  unfold InStep, syncButton, catKey. simpl.
  destruct (String.eqb (norm (JStr (orAll (data_cat btn)))) A) eqn:E.
  - apply String.eqb_eq in E. repeat split; intros; try discriminate; auto.
  - apply String.eqb_neq in E. repeat split; intros; try discriminate; auto;
      try contradiction.
Qed.

Lemma map_syncButton_InStep (A : string) (group : list Button) :
  Forall (InStep A) (map (syncButton A) group).
Proof.
  induction group; simpl; constructor; auto using syncButton_InStep.
Qed.

Lemma map_syncButton_data_cat (A : string) (group : list Button) :
  map data_cat (map (syncButton A) group) = map data_cat group.
Proof. rewrite map_map. reflexivity. Qed.

Lemma map_wireButton_data_cat (group : list Button) :
  map data_cat (map wireButton group) = map data_cat group.
Proof.
  rewrite map_map. apply map_ext. intros b. unfold wireButton.
  destruct (dataset_wired b); reflexivity.
Qed.

Section ClickInvariant.

(** The [data-cat] attributes of the group, which no click changes. *)
Variable cats : list (option string).

Lemma clickListener_Synced (i : nat) (q : Page) :
  Synced cats q -> Synced cats (clickListener i q).
Proof.
  intros (g & G & C & F). unfold clickListener. rewrite G.
  destruct (nth_error g i) as [btn|]; [|now exists g].
  unfold applyFilter, updateButtonsUI, setActiveFrom. simpl. rewrite G. simpl.
  eexists. split; [reflexivity|]. split.
  - now rewrite map_syncButton_data_cat.
  - apply map_syncButton_InStep.
Qed.

Lemma click_Synced (i : nat) (q : Page) :
  Synced cats q -> Synced cats (click i q).
Proof.
  intros H. unfold click.
  destruct H as (g & G & C & F). rewrite G.
  destruct (nth_error g i) as [btn|]; [|now exists g].
  induction (clickListeners btn) as [|n IH]; simpl.
  - now exists g.
  - now apply clickListener_Synced.
Qed.

Lemma clicks_Synced (clicks : list nat) (q : Page) :
  Synced cats q -> Synced cats (run q (map Click clicks)).
Proof.
  revert q. induction clicks as [|i l IH]; intros q H; simpl; [exact H|].
  apply IH. now apply click_Synced.
Qed.

End ClickInvariant.

Lemma InStep_no_other (A : string) (group : list Button) (b : Button) :
  Forall (InStep A) group ->
  catKey b = A -> ~ In (catKey b) (map catKey group) -> selected group = [].
Proof.
  intros F K N. induction F as [|x l X F IH]; [reflexivity|].
  unfold selected in *. simpl in *.
  destruct (cls_active x) eqn:E.
  - exfalso. apply N. left. destruct X as [X _]. rewrite (proj1 X E). now symmetry.
  - apply IH. tauto.
Qed.

Lemma InStep_count (A : string) (group : list Button) :
  Forall (InStep A) group -> NoDup (map catKey group) ->
  List.length (selected group)
  = if existsb (fun b => String.eqb (catKey b) A) group then 1 else 0.
Proof.
  intros F. induction F as [|x l X F IH]; intros D; [reflexivity|].
  simpl in D. inversion D as [|? ? N D']; subst.
  unfold selected in *. simpl. destruct X as [X _].
  destruct (cls_active x) eqn:E.
  - rewrite (proj2 (String.eqb_eq _ _) (proj1 X eq_refl)). simpl.
    fold (selected l).
    now rewrite (InStep_no_other A l x F (proj1 X eq_refl) N).
  - destruct (String.eqb (catKey x) A) eqn:K.
    + apply String.eqb_eq in K. apply X in K. discriminate K.
    + simpl. auto.
Qed.

(** C6, as the code has it.  Once the buttons are wired, after any
    sequence of clicks the group has the buttons it had, a button carries
    the selected state exactly when its normalised [data-cat] is the stored
    active category, and [aria-pressed] is ["true"] exactly on the selected
    buttons and ["false"] on the others.  When no two buttons share a
    normalised category, exactly one button is selected if some button has
    the active category, and none otherwise. *)
Theorem selection_follows_active_category
  (p : Page) (group : list Button) (clicks : list nat) :
  filterGroup p = Some group ->
  let q := run (fst (wireButtonsIfPresent p)) (map Click clicks) in
  exists group',
    filterGroup q = Some group' /\
    map data_cat group' = map data_cat group /\
    Forall (InStep (activeCategory q)) group' /\
    (NoDup (map catKey group) ->
     List.length (selected group')
     = if existsb (fun b => String.eqb (catKey b) (activeCategory q)) group'
       then 1 else 0).
Proof.
  intros G q.
  assert (S0 : Synced (map data_cat group) (fst (wireButtonsIfPresent p))).
  { destruct (wireButtonsIfPresent_present p group G) as (_ & A & _ & F).
    eexists. split; [exact F|]. split.
    - now rewrite map_syncButton_data_cat, map_wireButton_data_cat.
    - rewrite A. apply map_syncButton_InStep. }
  destruct (clicks_Synced _ clicks _ S0) as (g & Hg & C & F).
  exists g. repeat split; try assumption.
  intros D. apply (InStep_count _ _ F).
  assert (E : map catKey g = map catKey group).
  { unfold catKey. rewrite <- (map_map data_cat (fun c => norm (JStr (orAll c))) g),
      <- (map_map data_cat (fun c => norm (JStr (orAll c))) group). now rewrite C. }
  now rewrite E.
Qed.

Lemma selection_follows_active_category_witness :
  let q := run (fst (wireButtonsIfPresent (freshPage (Some headerGroup) 1)))
             (map Click [1; 3; 0; 2]) in
  activeCategory q = "1" /\
  exists group',
    filterGroup q = Some group' /\
    map data_cat group' = map data_cat headerGroup /\
    Forall (InStep (activeCategory q)) group' /\
    (NoDup (map catKey headerGroup) ->
     List.length (selected group')
     = if existsb (fun b => String.eqb (catKey b) (activeCategory q)) group'
       then 1 else 0).
Proof.
  split; [reflexivity|].
  apply (selection_follows_active_category
           (freshPage (Some headerGroup) 1) headerGroup [1; 3; 0; 2]).
  reflexivity.
Defined.

(** C6, as stated, fails.  In a block where the buttons ["category-3"] and
    ["3"] stand side by side, one click on the first leaves both
    selected. *)
Lemma twin_buttons_both_selected :
  let q := run (fst (attach wholeDocument (freshPage (Some twinGroup) 1))) [Click 1] in
  activeCategory q = "3" /\
  option_map (map cls_active) (filterGroup q) = Some [false; true; true] /\
  option_map (map aria_pressed) (filterGroup q)
  = Some [Some "false"; Some "true"; Some "true"] /\
  option_map (fun g => List.length (selected g)) (filterGroup q) = Some 2.
Proof. vm_compute. repeat split; reflexivity. Qed.

(** ** The source guard *)

Lemma sourceRemove_sources (s : EventSource) (p : Page) :
  sources (sourceRemove s p) = filter (fun x => negb (sourceIn [s] x)) (sources p).
Proof.
  unfold sourceRemove, sourceIn. simpl. apply filter_ext. intros x.
  now rewrite orb_false_r.
Qed.

Lemma filter_filter {A : Type} (f g : A -> bool) (l : list A) :
  filter f (filter g l) = filter (fun x => g x && f x) l.
Proof.
  induction l as [|a l IH]; simpl; [reflexivity|].
  destruct (g a); simpl; [destruct (f a)|]; now rewrite IH.
Qed.

Lemma removeAll_sources (l : list EventSource) (p : Page) :
  sources (fold_left (fun q s => sourceRemove s q) l p)
  = filter (fun x => negb (sourceIn l x)) (sources p).
Proof.
  revert p. induction l as [|s l IH]; intros p; simpl.
  - symmetry. clear. induction (sources p) as [|a r IH]; simpl; [reflexivity | now rewrite IH].
  - rewrite IH, sourceRemove_sources, filter_filter. apply filter_ext. intros x.
    unfold sourceIn. simpl. rewrite orb_false_r.
    now rewrite negb_orb.
Qed.

Lemma removeAll_log (l : list EventSource) (p : Page) :
  removalLog (fold_left (fun q s => sourceRemove s q) l p)
  = (removalLog p ++ map internalId l)%list.
Proof.
  revert p. induction l as [|s l IH]; intros p; simpl.
  - now rewrite app_nil_r.
  - rewrite IH. simpl. now rewrite <- app_assoc.
Qed.

Lemma ensureSingleEventSource_unfold (p : Page) :
  ensureSingleEventSource p
  = fold_left (fun q s => sourceRemove s q) (skipn 1 (filter urlIsFeed (sources p))) p.
Proof.
  unfold ensureSingleEventSource.
  destruct (1 <? _) eqn:E; [reflexivity|].
  apply Nat.ltb_ge in E.
  destruct (filter urlIsFeed (sources p)) as [|a [|b l]]; simpl in *; try reflexivity; lia.
Qed.

Lemma internalId_inj (l : list EventSource) (x y : EventSource) :
  NoDup (map internalId l) -> In x l -> In y l -> internalId x = internalId y -> x = y.
Proof.
  induction l as [|a l IH]; simpl; intros D Hx Hy E; [contradiction|].
  inversion D as [|? ? N D']; subst.
  destruct Hx as [<-|Hx], Hy as [<-|Hy]; auto.
  - exfalso. apply N. rewrite E. now apply in_map.
  - exfalso. apply N. rewrite <- E. now apply in_map.
Qed.

Lemma sourceIn_false (l : list EventSource) (x : EventSource) :
  ~ In (internalId x) (map internalId l) -> sourceIn l x = false.
Proof.
  intros N. unfold sourceIn. apply not_true_is_false. intros H.
  apply existsb_exists in H as (y & Hy & E). apply Nat.eqb_eq in E.
  apply N. rewrite E. now apply in_map.
Qed.

Lemma sourceIn_feed (r : list EventSource) (x : EventSource) :
  NoDup (map internalId r) -> In x r ->
  sourceIn (filter urlIsFeed r) x = urlIsFeed x.
Proof.
  intros D Hx. destruct (urlIsFeed x) eqn:F.
  - apply existsb_exists. exists x. split.
    + apply filter_In. now split.
    + apply Nat.eqb_refl.
  - apply not_true_is_false. intros H.
    apply existsb_exists in H as (y & Hy & E). apply Nat.eqb_eq in E.
    apply filter_In in Hy as [Hy Fy].
    rewrite (internalId_inj r x y D Hx Hy E) in F. congruence.
Qed.

Lemma not_in_sub (l l' : list EventSource) (n : nat) :
  incl l' l -> ~ In n (map internalId l) -> ~ In n (map internalId l').
Proof.
  intros I N H. apply N. apply in_map_iff in H as (y & <- & Hy).
  apply in_map, I, Hy.
Qed.

Lemma incl_skipn_filter (l : list EventSource) : incl (skipn 1 (filter urlIsFeed l)) l.
Proof.
  intros x H. destruct (filter urlIsFeed l) as [|a m] eqn:E; simpl in H; [contradiction|].
  assert (In x (filter urlIsFeed l)) as I by (rewrite E; now right).
  now apply filter_In in I.
Qed.

Lemma retainFirstFeed_filter (l : list EventSource) :
  NoDup (map internalId l) ->
  filter (fun x => negb (sourceIn (skipn 1 (filter urlIsFeed l)) x)) l = retainFirstFeed l.
Proof.
  induction l as [|s r IH]; simpl; intros D; [reflexivity|].
  inversion D as [|? ? N D']; subst.
  destruct (urlIsFeed s) eqn:F; simpl.
  - rewrite (sourceIn_false _ s).
    2:{ apply (not_in_sub r); [|exact N]. intros x H. now apply filter_In in H. }
    simpl. f_equal. apply filter_ext_in. intros x Hx.
    unfold notFeed. now rewrite (sourceIn_feed r x D' Hx).
  - rewrite (sourceIn_false _ s).
    2:{ apply (not_in_sub r); [apply incl_skipn_filter | exact N]. }
    simpl. f_equal. now apply IH.
Qed.

Lemma retainFirstFeed_feed (l : list EventSource) :
  filter urlIsFeed (retainFirstFeed l) = firstn 1 (filter urlIsFeed l).
Proof.
  induction l as [|s r IH]; simpl; [reflexivity|].
  destruct (urlIsFeed s) eqn:F; simpl; rewrite F.
  - f_equal. rewrite filter_filter.
    clear. induction r as [|a r IH]; simpl; [reflexivity|].
    unfold notFeed at 1. destruct (urlIsFeed a); simpl; exact IH.
  - exact IH.
Qed.

Lemma retainFirstFeed_others (l : list EventSource) :
  filter notFeed (retainFirstFeed l) = filter notFeed l.
Proof.
  induction l as [|s r IH]; simpl; [reflexivity|].
  destruct (urlIsFeed s) eqn:F; simpl.
  - assert (N : notFeed s = false) by (unfold notFeed; now rewrite F).
    rewrite N, filter_filter. apply filter_ext. intros x. apply andb_diag.
  - assert (N : notFeed s = true) by (unfold notFeed; now rewrite F).
    now rewrite N, IH.
Qed.

(** C7.  On a widget whose source objects are distinct,
    [ensureSingleEventSource] keeps the sources in their order, every
    source that does not point at the feed, and of those that do the first
    one only; it calls [remove()] on each later one.  Run again on the
    result, it removes nothing: the page is left as it is. *)
Theorem ensureSingleEventSource_keeps_first (p : Page) :
  NoDup (map internalId (sources p)) ->
  let q := ensureSingleEventSource p in
  sources q = retainFirstFeed (sources p) /\
  filter urlIsFeed (sources q) = firstn 1 (filter urlIsFeed (sources p)) /\
  filter notFeed (sources q) = filter notFeed (sources p) /\
  removalLog q = (removalLog p ++ map internalId (skipn 1 (filter urlIsFeed (sources p))))%list /\
  ensureSingleEventSource q = q /\
  removalLog (ensureSingleEventSource q) = removalLog q.
Proof.
  intros D q.
  assert (S : sources q = retainFirstFeed (sources p)).
  { unfold q. rewrite ensureSingleEventSource_unfold, removeAll_sources.
    now apply retainFirstFeed_filter. }
  assert (I : ensureSingleEventSource q = q).
  { unfold ensureSingleEventSource at 1. rewrite S, retainFirstFeed_feed.
    destruct (filter urlIsFeed (sources p)) as [|a [|b l]]; reflexivity. }
  repeat split.
  - exact S.
  - rewrite S. apply retainFirstFeed_feed.
  - rewrite S. apply retainFirstFeed_others.
  - unfold q. rewrite ensureSingleEventSource_unfold. apply removeAll_log.
  - exact I.
  - now rewrite I.
Qed.

Lemma ensureSingleEventSource_keeps_first_witness :
  let p := set_sources crowdedSources headerPage in
  let q := ensureSingleEventSource p in
  map internalId (sources q) = [0; 1] /\
  (sources q = retainFirstFeed (sources p) /\
   filter urlIsFeed (sources q) = firstn 1 (filter urlIsFeed (sources p)) /\
   filter notFeed (sources q) = filter notFeed (sources p) /\
   removalLog q = (removalLog p ++ map internalId (skipn 1 (filter urlIsFeed (sources p))))%list /\
   ensureSingleEventSource q = q /\
   removalLog (ensureSingleEventSource q) = removalLog q).
Proof.
  split; [reflexivity|].
  apply (ensureSingleEventSource_keeps_first (set_sources crowdedSources headerPage)).
  simpl. repeat constructor; simpl; lia.
Defined.

(** ** Where the active category comes from, and what is filtered with it *)

Lemma wireButtonsIfPresent_widget (p : Page) :
  let q := fst (wireButtonsIfPresent p) in
  events q = events p /\ sources q = sources p /\ removalLog q = removalLog p /\
  calendarNodes q = calendarNodes p /\ observers q = observers p /\
  consoleWarnings q = consoleWarnings p.
Proof.
  unfold wireButtonsIfPresent, getFilterGroup.
  destruct (filterGroup p) as [g|]; simpl; [|repeat split].
  destruct (buttonsWired p); simpl; [repeat split|].
  unfold adoptMarkup. destruct (readDefaultFromMarkup p) as [raw|]; [|repeat split].
  destruct (String.eqb raw ""); repeat split.
Qed.

Lemma removeAll_events (l : list EventSource) (p : Page) :
  events (fold_left (fun q s => sourceRemove s q) l p)
  = filter (fun ev => negb (existsb (fun s => sourceId ev =? internalId s) l)) (events p).
Proof.
  revert p. induction l as [|s l IH]; intros p; cbn [fold_left existsb].
  - symmetry. clear. induction (events p) as [|a r IH]; [reflexivity|].
    simpl in *. now rewrite IH.
  - rewrite IH. unfold sourceRemove. cbn [events set_removalLog set_events].
    rewrite filter_filter. apply filter_ext. intros ev.
    now rewrite negb_orb.
Qed.

(** The source guard looks at the widget only. *)
Lemma ensureSingleEventSource_events (p q : Page) :
  sources q = sources p -> events q = events p ->
  events (ensureSingleEventSource q) = events (ensureSingleEventSource p).
Proof.
  intros S E. rewrite !ensureSingleEventSource_unfold, !removeAll_events.
  now rewrite S, E.
Qed.

Lemma map_filterEvent_by_contract (A : string) (evs : list EventObj) :
  Forall2
    (fun ev ev' =>
       sameButDisplay ev ev' /\
       (display ev' = JStr "auto" <-> ShownByContract A ev) /\
       (display ev' = JStr "none" <-> ~ ShownByContract A ev))
    evs (map (filterEvent A) evs).
Proof.
  induction evs as [|ev evs IH]; cbn [map]; constructor; [|exact IH].
  destruct (filterEvent_display A ev) as (S & H1 & H2).
  split; [exact S|]. rewrite (ShownByContract_Shown A ev). split; assumption.
Qed.

Lemma RawCarries_lookup (raw : EventObj) (c : JsValue) :
  RawCarries raw c
  <-> c = nullish (nullish (extendedCategory raw) (raw_category raw)) (className raw).
Proof.
  unfold nullish. split.
  - intros [c' C | N L | N L].
    + apply CarriesCategory_extendedCategory in C as [E L]. subst c'.
      rewrite L. now rewrite L.
    + apply CarriesNothing_extendedCategory in N. rewrite N. now rewrite L.
    + apply CarriesNothing_extendedCategory in N. rewrite N. now rewrite L.
  - intros ->. destruct (looseNull (extendedCategory raw)) eqn:L.
    + destruct (looseNull (raw_category raw)) eqn:L'.
      * apply RawClassName; [now apply CarriesNothing_extendedCategory | exact L'].
      * apply RawTopLevel; [now apply CarriesNothing_extendedCategory | exact L'].
    + rewrite L. apply RawUnderExtendedProps.
      now apply CarriesCategory_extendedCategory.
Qed.

(** The contract for feed records and the key the transform computes say
    the same. *)
Lemma RawShownByContract_rawKey (A : string) (raw : EventObj) :
  RawShownByContract A raw <-> A = "all" \/ rawKey raw = A.
Proof.
  unfold RawShownByContract, rawKey. split.
  - intros [H | (c & C & N)]; [now left|]. right.
    apply RawCarries_lookup in C. now subst c.
  - intros [H | H]; [now left|]. right.
    eexists. split; [apply RawCarries_lookup; reflexivity | exact H].
Qed.

(** C3, as the code has it.  With the control group in the document, the
    markup says: the [data-cat] of the first button marked active (["all"]
    when it is missing or empty, or when no button is marked).  The
    pre-render transform stores the key of that value and marks the record
    with it, by the record's category.  The callback that ends a fetch
    reads the markup only while the buttons are not wired: it then works
    with the key of the markup's value, and once the buttons are wired with
    the stored category; with that category it rewrites the buttons'
    selected state and marks the events the source guard has left. *)
Theorem active_category_reread (p : Page) (group : list Button) (raw : EventObj) :
  filterGroup p = Some group ->
  let fromMarkup := match find cls_active group with
                    | Some btn => orAll (data_cat btn)
                    | None => "all"
                    end in
  let A := if buttonsWired p then activeCategory p else norm (JStr fromMarkup) in
  readDefaultFromMarkup p = Some fromMarkup /\
  (activeCategory (fst (eventDataTransform raw p)) = norm (JStr fromMarkup) /\
   sameButDisplay raw (snd (eventDataTransform raw p)) /\
   (display (snd (eventDataTransform raw p)) = JStr "auto"
    <-> RawShownByContract (norm (JStr fromMarkup)) raw) /\
   (display (snd (eventDataTransform raw p)) = JStr "none"
    <-> ~ RawShownByContract (norm (JStr fromMarkup)) raw)) /\
  (activeCategory (loading false p) = A /\
   filterGroup (loading false p) = Some (map (syncButton A) (map wireButton group)) /\
   Forall2
     (fun ev ev' =>
        sameButDisplay ev ev' /\
        (display ev' = JStr "auto" <-> ShownByContract A ev) /\
        (display ev' = JStr "none" <-> ~ ShownByContract A ev))
     (events (ensureSingleEventSource p)) (events (loading false p))).
Proof.
  intros G fromMarkup A.
  assert (R : readDefaultFromMarkup p = Some fromMarkup).
  { unfold readDefaultFromMarkup, getFilterGroup, querySelectorActive, fromMarkup.
    rewrite G. now destruct (find cls_active group). }
  assert (T : String.eqb fromMarkup "" = false).
  { unfold fromMarkup. destruct (find cls_active group); [apply orAll_nonempty | reflexivity]. }
  split; [exact R|]. split.
  - assert (E : activeCategory (fst (eventDataTransform raw p)) = norm (JStr fromMarkup)).
    { unfold eventDataTransform. cbn [fst]. now rewrite R, (adoptMarkup_truthy _ _ T). }
    destruct (eventDataTransform_display raw p) as (S & H1 & H2). cbv zeta in H1, H2.
    rewrite E in H1, H2.
    split; [exact E|]. split; [exact S|].
    rewrite (RawShownByContract_rawKey (norm (JStr fromMarkup)) raw). split; assumption.
  - destruct (loading_done_active p) as [LA LG].
    destruct (wireButtonsIfPresent_present p group G) as (_ & WA & _ & WG).
    rewrite R in WA, WG. cbn [orAll] in WA, WG. rewrite T in WA, WG.
    fold A in WA, WG.
    assert (QA : activeCategory (loading false p) = A) by (now rewrite LA).
    split; [exact QA|]. split; [now rewrite LG|].
    destruct (wireButtonsIfPresent_widget p) as (WE & WS & _).
    destruct (ensureSingleEventSource_frame (fst (wireButtonsIfPresent p)))
      as (_ & _ & _ & _ & E5 & _).
    unfold loading, applyFilter. cbn [negb events set_events].
    rewrite E5, WA.
    rewrite (ensureSingleEventSource_events p (fst (wireButtonsIfPresent p)) WS WE).
    apply map_filterEvent_by_contract.
Qed.

Lemma active_category_reread_witness :
  let p := set_events [event904; event3] (freshPage (Some headerGroup) 1) in
  (activeCategory p = "" /\ buttonsWired p = false /\
   display (snd (eventDataTransform event904 p)) = JStr "auto" /\
   display (snd (eventDataTransform event3 p)) = JStr "none" /\
   map display (events (loading false p)) = [JStr "auto"; JStr "none"]) /\
  (readDefaultFromMarkup p = Some "category-904" /\
   (activeCategory (fst (eventDataTransform event904 p)) = norm (JStr "category-904") /\
    sameButDisplay event904 (snd (eventDataTransform event904 p)) /\
    (display (snd (eventDataTransform event904 p)) = JStr "auto"
     <-> RawShownByContract (norm (JStr "category-904")) event904) /\
    (display (snd (eventDataTransform event904 p)) = JStr "none"
     <-> ~ RawShownByContract (norm (JStr "category-904")) event904)) /\
   (activeCategory (loading false p) = norm (JStr "category-904") /\
    filterGroup (loading false p)
    = Some (map (syncButton (norm (JStr "category-904"))) (map wireButton headerGroup)) /\
    Forall2
      (fun ev ev' =>
         sameButDisplay ev ev' /\
         (display ev' = JStr "auto" <-> ShownByContract (norm (JStr "category-904")) ev) /\
         (display ev' = JStr "none" <-> ~ ShownByContract (norm (JStr "category-904")) ev))
      (events (ensureSingleEventSource p)) (events (loading false p)))).
Proof.
  split; [repeat split; reflexivity|].
  apply (active_category_reread (set_events [event904; event3] (freshPage (Some headerGroup) 1))
           headerGroup event904).
  reflexivity.
Defined.

(** C3, as stated, fails.  The user picks category 3; the filter block is
    then rendered anew with category 904 marked active and no button for
    category 3; a fetch that brings no record ends.  The callback filters
    with the stored category 3: it hides the event of category 904 and
    shows the one of category 3.  That category is neither what the markup
    said when the callback started (904, with which the transform would
    mark the same events the other way round) nor what it says when the
    filter runs (no active button, hence "all"). *)
Lemma loading_keeps_stored_category :
  let p := run (set_events [event904; event3] headerPage)
             [Click 1; SetMarkup (Some rerenderedGroup); Loading true] in
  filterGroup p = Some rerenderedGroup /\
  readDefaultFromMarkup p = Some "category-904" /\
  activeCategory (loading false p) = "3" /\
  activeCategory (loading false p) <> norm (JStr "category-904") /\
  map display (events (loading false p)) = [JStr "none"; JStr "auto"] /\
  display (snd (eventDataTransform event904 p)) = JStr "auto" /\
  display (snd (eventDataTransform event3 p)) = JStr "none" /\
  readDefaultFromMarkup (loading false p) = Some "all" /\
  activeCategory (loading false p) <> norm (JStr "all").
Proof. vm_compute. repeat split; try reflexivity; discriminate. Qed.

(** ** The instance guard *)

Lemma SameInstance_refl (p : Page) : SameInstance p p.
Proof. split; reflexivity. Qed.

Lemma SameInstance_trans (p q r : Page) :
  SameInstance p q -> SameInstance q r -> SameInstance p r.
Proof. intros [A B] [C D]. split; congruence. Qed.

Lemma adoptMarkup_instance (m : option string) (p : Page) : SameInstance p (adoptMarkup m p).
Proof.
  unfold adoptMarkup. destruct m as [raw|]; [|apply SameInstance_refl].
  destruct (String.eqb raw ""); split; reflexivity.
Qed.

Lemma ensureSingleEventSource_instance (p : Page) :
  SameInstance p (ensureSingleEventSource p).
Proof.
  destruct (ensureSingleEventSource_frame p) as (H1 & _ & _ & _ & _ & _ & H7 & _).
  split; assumption.
Qed.

Lemma wireButtonsIfPresent_instance (p : Page) :
  SameInstance p (fst (wireButtonsIfPresent p)).
Proof.
  unfold wireButtonsIfPresent, getFilterGroup.
  destruct (filterGroup p) as [buttons|]; [|apply SameInstance_refl]. simpl.
  set (p1 := if negb (buttonsWired p) then _ else p).
  assert (H : SameInstance p p1).
  { unfold p1. destruct (negb (buttonsWired p));
      [apply adoptMarkup_instance | apply SameInstance_refl]. }
  destruct H as [A B]. split; simpl; assumption.
Qed.

Lemma clickListener_instance (i : nat) (p : Page) : SameInstance p (clickListener i p).
Proof.
  unfold clickListener.
  destruct (filterGroup p) as [buttons|] eqn:G; [|apply SameInstance_refl].
  destruct (nth_error buttons i) as [btn|]; [|apply SameInstance_refl].
  unfold applyFilter, updateButtonsUI, setActiveFrom. simpl. rewrite G.
  split; reflexivity.
Qed.

Lemma step_instance (p : Page) (a : Action) : SameInstance p (step p a).
Proof.
  destruct a as [i | raw | isLoading | group]; simpl.
  - unfold click.
    destruct (filterGroup p) as [buttons|]; [|apply SameInstance_refl].
    destruct (nth_error buttons i) as [btn|]; [|apply SameInstance_refl].
    induction (clickListeners btn) as [|n IH]; simpl; [apply SameInstance_refl|].
    eapply SameInstance_trans; [exact IH | apply clickListener_instance].
  - apply adoptMarkup_instance.
  - unfold loading. destruct isLoading; simpl; [apply SameInstance_refl|].
    eapply SameInstance_trans; [apply wireButtonsIfPresent_instance|].
    destruct (ensureSingleEventSource_instance (fst (wireButtonsIfPresent p))) as [A B].
    split; assumption.
  - split; reflexivity.
Qed.

Lemma attach_guarded (context : nat -> bool) (p : Page) :
  isSome (fcCalendarInstance p) = true -> attach context p = (p, JUndefined).
Proof. intros H. unfold attach. now rewrite H. Qed.


Lemma once_frame (context : nat -> bool) (p : Page) :
  exists els,
    snd (once context p) = set_calendarNodes els p /\
    List.length els = List.length (calendarNodes p).
Proof.
  unfold once.
  assert (L : forall i l, List.length (snd (onceFrom context i l)) = List.length l).
  { intros i l. revert i. induction l as [|el r IH]; intros i; simpl; [reflexivity|].
    specialize (IH (S i)). destruct (onceFrom context (S i) r) as [found rest].
    destruct (context i && negb (once_fc_init el)); simpl in *; now rewrite IH. }
  specialize (L 0 (calendarNodes p)).
  destruct (onceFrom context 0 (calendarNodes p)) as [found els].
  exists els. split; [reflexivity | exact L].
Qed.

(** A construction by [attach] leaves the instance flag set. *)
Lemma attach_constructs_sets_flag (context : nat -> bool) (p : Page) :
  constructed (fst (attach context p)) = S (constructed p) ->
  isSome (fcCalendarInstance (fst (attach context p))) = true.
Proof.
  unfold attach.
  destruct (isSome (fcCalendarInstance p)); simpl; [lia|].
  destruct (once_frame context p) as (els & O & _).
  destruct (once context p) as [calendarEls p0]. simpl in O. subst p0.
  destruct calendarEls as [|el rest]; simpl; [lia|].
  destruct (1 <? List.length els); simpl; [lia|].
  intros _.
  match goal with |- context [wireButtonsIfPresent ?x] => set (p3 := x) end.
  pose proof (wireButtonsIfPresent_instance p3) as [W _].
  destruct (wireButtonsIfPresent p3) as [p4 wiredNow]. simpl in W. cbn [fst].
  match goal with |- context [ensureSingleEventSource ?x] =>
    destruct (ensureSingleEventSource_instance x) as [E _]; rewrite E end.
  destruct wiredNow; simpl; rewrite W; reflexivity.
Qed.




(** ** Buttons without a category *)

Lemma orAll_missing (a : option string) : a = None \/ a = Some "" -> orAll a = "all".
Proof. intros [-> | ->]; reflexivity. Qed.

Lemma clickListener_at (i : nat) (p : Page) (group : list Button) (btn : Button) :
  filterGroup p = Some group -> nth_error group i = Some btn ->
  let A := norm (JStr (orAll (data_cat btn))) in
  activeCategoryRaw (clickListener i p) = orAll (data_cat btn) /\
  activeCategory (clickListener i p) = A /\
  filterGroup (clickListener i p) = Some (map (syncButton A) group).
Proof.
  intros G N. unfold clickListener. rewrite G, N.
  unfold applyFilter, updateButtonsUI, setActiveFrom. simpl. rewrite G.
  repeat split.
Qed.

Lemma click_at (i : nat) (p : Page) (group : list Button) (btn : Button) :
  filterGroup p = Some group -> nth_error group i = Some btn ->
  0 < clickListeners btn ->
  let A := norm (JStr (orAll (data_cat btn))) in
  activeCategoryRaw (click i p) = orAll (data_cat btn) /\
  activeCategory (click i p) = A /\
  filterGroup (click i p) = Some (map (syncButton A) group).
Proof.
  intros G N L A. unfold click. rewrite G, N.
  destruct (clickListeners btn) as [|n]; [lia|]. clear L.
  induction n as [|n IH].
  - exact (clickListener_at i p group btn G N).
  - remember (Nat.iter (S n) (clickListener i) p) as q eqn:Q.
    change (Nat.iter (S (S n)) (clickListener i) p) with (clickListener i (Nat.iter (S n) (clickListener i) p)).
    rewrite <- Q. clear Q.
    destruct IH as (_ & _ & F).
    destruct (clickListener_at i q _ (syncButton A btn) F) as (R1 & R2 & R3).
    { now rewrite nth_error_map, N. }
    simpl in R1, R2, R3. fold A in R2, R3.
    repeat split; try assumption.
    rewrite R3, map_map. f_equal.
Qed.

(** C10.  A button whose [data-cat] is missing or empty counts as category
    ["all"]: [readDefaultFromMarkup] answers ["all"] when it is the active
    button, its click listener (and a click on it, once it is wired) stores
    ["all"] as the raw and as the normalised active category, and
    [updateButtonsUI] selects it exactly when the active category is
    ["all"]. *)
Theorem missing_data_cat_is_all
  (p : Page) (group : list Button) (i : nat) (btn : Button) :
  filterGroup p = Some group ->
  nth_error group i = Some btn ->
  data_cat btn = None \/ data_cat btn = Some "" ->
  (querySelectorActive group = Some btn -> readDefaultFromMarkup p = Some "all") /\
  (activeCategoryRaw (clickListener i p) = "all" /\
   activeCategory (clickListener i p) = "all") /\
  (0 < clickListeners btn ->
   activeCategoryRaw (click i p) = "all" /\ activeCategory (click i p) = "all") /\
  catKey btn = "all" /\
  (forall A : string, cls_active (syncButton A btn) = true <-> A = "all") /\
  (forall A : string, aria_pressed (syncButton A btn) = Some "true" <-> A = "all").
Proof.
  intros G N M. pose proof (orAll_missing _ M) as O.
  assert (K : catKey btn = "all") by (unfold catKey; now rewrite O).
  split; [|split; [|split; [|split; [exact K|split]]]].
  - intros Q. unfold readDefaultFromMarkup, getFilterGroup. now rewrite G, Q, O.
  - destruct (clickListener_at i p group btn G N) as (R1 & R2 & _).
    rewrite O in R1, R2. split; assumption.
  - intros L. destruct (click_at i p group btn G N L) as (R1 & R2 & _).
    rewrite O in R1, R2. split; assumption.
  - intros A. destruct (syncButton_InStep A btn) as (S1 & _).
    change (catKey (syncButton A btn)) with (catKey btn) in S1.
    rewrite K in S1. split; intros H; [symmetry|]; now apply S1.
  - intros A. destruct (syncButton_InStep A btn) as (S1 & S2 & _).
    change (catKey (syncButton A btn)) with (catKey btn) in S1.
    rewrite K in S1. rewrite S2. split; intros H; [symmetry|]; now apply S1.
Qed.

Lemma missing_data_cat_is_all_witness :
  let p := fst (attach wholeDocument (freshPage (Some bareGroup) 1)) in
  let group := map (syncButton "all") (map wireButton bareGroup) in
  let btn := syncButton "all" (wireButton (mkButton None true)) in
  (filterGroup p = Some group /\ nth_error group 1 = Some btn /\
   querySelectorActive group = Some btn /\ 0 < clickListeners btn) /\
  ((querySelectorActive group = Some btn -> readDefaultFromMarkup p = Some "all") /\
   (activeCategoryRaw (clickListener 1 p) = "all" /\
    activeCategory (clickListener 1 p) = "all") /\
   (0 < clickListeners btn ->
    activeCategoryRaw (click 1 p) = "all" /\ activeCategory (click 1 p) = "all") /\
   catKey btn = "all" /\
   (forall A : string, cls_active (syncButton A btn) = true <-> A = "all") /\
   (forall A : string, aria_pressed (syncButton A btn) = Some "true" <-> A = "all")).
Proof.
  split.
  - repeat split; simpl; lia.
  - apply (missing_data_cat_is_all
             (fst (attach wholeDocument (freshPage (Some bareGroup) 1)))
             (map (syncButton "all") (map wireButton bareGroup))
             1 (syncButton "all" (wireButton (mkButton None true)))).
    + reflexivity.
    + reflexivity.
    + left. reflexivity.
Defined.

(** * Further properties of the script *)

(** ** More on [norm] *)

Lemma blank_trimEnd (w : string) : blank w = true -> trimEnd w = "".
Proof.
  induction w as [|c r IH]; simpl; [reflexivity|].
  unfold blank in *; simpl. intros H. apply andb_prop in H as [W R].
  now rewrite (IH R), W.
Qed.

Lemma trimStart_blank_app (w s : string) :
  blank w = true -> trimStart (w ++ s) = trimStart s.
Proof.
  induction w as [|c r IH]; simpl; [reflexivity|].
  unfold blank in *; simpl. intros H. apply andb_prop in H as [W R].
  rewrite W. now apply IH.
Qed.

Lemma trimEnd_app_blank (s w : string) :
  blank w = true -> trimEnd (s ++ w) = trimEnd s.
Proof.
  intros B. induction s as [|c r IH]; simpl.
  - now apply blank_trimEnd.
  - now rewrite IH.
Qed.

Lemma trimStart_app (s w : string) :
  trimStart (s ++ w) = if String.eqb (trimStart s) "" then trimStart w else trimStart s ++ w.
Proof.
  induction s as [|c r IH]; simpl; [reflexivity|].
  destruct (isWhiteSpace c); [exact IH | reflexivity].
Qed.

Lemma trim_padding (w1 s w2 : string) :
  blank w1 = true -> blank w2 = true -> trim (w1 ++ s ++ w2) = trim s.
Proof.
  intros B1 B2. unfold trim.
  rewrite (trimStart_blank_app _ _ B1), trimStart_app.
  destruct (String.eqb (trimStart s) "") eqn:E.
  - apply String.eqb_eq in E. now rewrite E, (blank_trimStart _ B2).
  - now apply trimEnd_app_blank.
Qed.

(** X1.  Texts that differ only in the case of their letters and in white
    space around them have the same key. *)
Theorem norm_ignores_case_and_padding (w1 s w2 t : string) :
  blank w1 = true -> blank w2 = true ->
  toLowerCase s = toLowerCase t ->
  norm (JStr (w1 ++ s ++ w2)) = norm (JStr t).
Proof.
  intros B1 B2 E. unfold norm. simpl.
  now rewrite (trim_padding _ _ _ B1 B2), !toLowerCase_trim, E.
Qed.

Lemma norm_ignores_case_and_padding_witness :
  norm (JStr ("  " ++ "Category-904" ++ " ")) = norm (JStr "CATEGORY-904").
Proof.
  apply (norm_ignores_case_and_padding "  " "Category-904" " " "CATEGORY-904");
    reflexivity.
Defined.

Lemma matchDigits_trimStart (s : string) : matchDigits (trimStart s) = matchDigits s.
Proof.
  induction s as [|c r IH]; simpl; [reflexivity|].
  destruct (isWhiteSpace c) eqn:W; [|reflexivity].
  destruct (isDigit c) eqn:D; [|exact IH].
  now rewrite (digit_not_space _ D) in W.
Qed.

Lemma digitRun_trimEnd (s : string) : digitRun (trimEnd s) = digitRun s.
Proof.
  induction s as [|c r IH]; simpl; [reflexivity|].
  destruct (trimEnd r) as [|c' r'] eqn:E.
  - destruct (isWhiteSpace c) eqn:W; simpl.
    + destruct (isDigit c) eqn:D; [|reflexivity].
      now rewrite (digit_not_space _ D) in W.
    + destruct (isDigit c); [|reflexivity]. now rewrite <- IH.
  - simpl digitRun at 1. destruct (isDigit c); [|reflexivity].
    now rewrite <- IH.
Qed.

Lemma matchDigits_trimEnd (s : string) : matchDigits (trimEnd s) = matchDigits s.
Proof.
  induction s as [|c r IH]; simpl; [reflexivity|].
  pose proof (digitRun_trimEnd r) as R.
  destruct (trimEnd r) as [|c' r'] eqn:E.
  - destruct (isWhiteSpace c) eqn:W; simpl.
    + destruct (isDigit c) eqn:D; [|now rewrite <- IH].
      now rewrite (digit_not_space _ D) in W.
    + destruct (isDigit c); [now rewrite <- R | now rewrite <- IH].
  - simpl matchDigits at 1. destruct (isDigit c); [now rewrite <- R | exact IH].
Qed.

Lemma digitRun_toLowerCase (s : string) : digitRun (toLowerCase s) = digitRun s.
Proof.
  induction s as [|c r IH]; simpl; [reflexivity|].
  rewrite isDigit_lowerChar. destruct (isDigit c) eqn:D; [|reflexivity].
  now rewrite (digit_lower_fixed _ D), IH.
Qed.

Lemma matchDigits_toLowerCase (s : string) :
  matchDigits (toLowerCase s) = matchDigits s.
Proof.
  induction s as [|c r IH]; simpl; [reflexivity|].
  rewrite isDigit_lowerChar. destruct (isDigit c) eqn:D; [|exact IH].
  now rewrite (digit_lower_fixed _ D), digitRun_toLowerCase.
Qed.

(** Trimming and lower-casing do not move the first run of digits. *)
Lemma matchDigits_key (s : string) : matchDigits (toLowerCase (trim s)) = matchDigits s.
Proof.
  unfold trim. now rewrite matchDigits_toLowerCase, matchDigits_trimEnd, matchDigits_trimStart.
Qed.

Lemma norm_first_digits (v : JsValue) (m : string) :
  looseNull v = false -> matchDigits (ToString v) = Some m -> norm v = m.
Proof.
  intros L M. unfold norm. rewrite L.
  rewrite <- matchDigits_key in M.
  destruct (String.eqb _ "all") eqn:E.
  - apply String.eqb_eq in E. rewrite E in M. discriminate M.
  - now rewrite M.
Qed.

Lemma matchDigits_prefix (pre s : string) :
  noDigits pre = true -> matchDigits (pre ++ s) = matchDigits s.
Proof.
  induction pre as [|c r IH]; simpl; [reflexivity|].
  unfold noDigits in *; simpl. intros H. apply andb_prop in H as [D R].
  apply negb_true_iff in D. rewrite D. now apply IH.
Qed.

Lemma allDigits_string_of_uint (d : Decimal.uint) :
  allDigits (NilEmpty.string_of_uint d) = true.
Proof. induction d; simpl; try reflexivity; exact IHd. Qed.

Lemma string_of_uint_nonempty (d : Decimal.uint) :
  d <> Decimal.Nil -> NilEmpty.string_of_uint d <> "".
Proof. destruct d; simpl; congruence. Qed.

(** The decimal digits a number prints with are its first run of digits. *)
Lemma matchDigits_number (n : Z) :
  matchDigits (ToString (JNum n)) = Some (ToString (JNum (Z.abs n))).
Proof.
  destruct n as [|p|p]; simpl; [reflexivity| |].
  - apply matchDigits_allDigits; [apply allDigits_string_of_uint|].
    apply string_of_uint_nonempty, DecimalPos.Unsigned.to_uint_nonnil.
  - apply matchDigits_allDigits; [apply allDigits_string_of_uint|].
    apply string_of_uint_nonempty, DecimalPos.Unsigned.to_uint_nonnil.
Qed.

(** X2.  The key of a safe integer (magnitude at most
    [MAX_SAFE_INTEGER]) is the decimal expansion of its magnitude, and so
    is the key of that number written after any text without digits: the
    feed's [904] and the markup's ["category-904"] meet. *)
Theorem norm_reconciles_encodings (n : Z) (prefix : string) :
  (Z.abs n <= MAX_SAFE_INTEGER)%Z ->
  noDigits prefix = true ->
  norm (JNum n) = ToString (JNum (Z.abs n)) /\
  norm (JStr (prefix ++ ToString (JNum n))) = norm (JNum n).
Proof.
  intros _ P.
  assert (N : norm (JNum n) = ToString (JNum (Z.abs n))).
  { apply norm_first_digits; [reflexivity | apply matchDigits_number]. }
  split; [exact N|]. rewrite N.
  apply norm_first_digits; [reflexivity|].
  change (ToString (JStr (prefix ++ ToString (JNum n)))) with (prefix ++ ToString (JNum n)).
  rewrite (matchDigits_prefix _ _ P). apply matchDigits_number.
Qed.

Lemma norm_reconciles_encodings_witness :
  norm (JNum 904) = "904" /\
  norm (JStr ("category-" ++ ToString (JNum 904))) = norm (JNum 904).
Proof.
  apply (norm_reconciles_encodings 904 "category-").
  - unfold MAX_SAFE_INTEGER. lia.
  - reflexivity.
Defined.

(** ** The two filtering paths, where they agree *)



(** ** Clicks *)

Lemma clickListener_selectCategory (i : nat) (p : Page) (group : list Button) (btn : Button) :
  filterGroup p = Some group -> nth_error group i = Some btn ->
  clickListener i p = selectCategory (orAll (data_cat btn)) p.
Proof. intros G N. unfold clickListener. now rewrite G, N. Qed.

Lemma filterEvent_twice (A B : string) (ev : EventObj) :
  filterEvent A (filterEvent B ev) = filterEvent A ev.
Proof. reflexivity. Qed.

Lemma syncButton_twice (A B : string) (btn : Button) :
  syncButton A (syncButton B btn) = syncButton A btn.
Proof. reflexivity. Qed.

(** Selecting a category wipes out what an earlier selection did. *)
Lemma selectCategory_twice (r1 r2 : string) (p : Page) :
  selectCategory r2 (selectCategory r1 p) = selectCategory r2 p.
Proof.
  unfold selectCategory, applyFilter, updateButtonsUI, setActiveFrom.
  destruct p as [inst nodes grp raw act wired built evs srcs log obs warns]. simpl.
  destruct grp as [g|]; simpl.
  - unfold set_events, set_filterGroup. simpl. f_equal.
    + f_equal. rewrite map_map. apply map_ext. intros b. apply syncButton_twice.
    + rewrite map_map. apply map_ext. intros e. apply filterEvent_twice.
  - unfold set_events. simpl. f_equal.
    rewrite map_map. apply map_ext. intros e. apply filterEvent_twice.
Qed.

Lemma selectCategory_group (raw : string) (p : Page) (group : list Button) :
  filterGroup p = Some group ->
  filterGroup (selectCategory raw p)
  = Some (map (syncButton (norm (JStr raw))) group) /\
  activeCategoryRaw (selectCategory raw p) = raw /\
  activeCategory (selectCategory raw p) = norm (JStr raw) /\
  events (selectCategory raw p) = map (filterEvent (norm (JStr raw))) (events p).
Proof.
  intros G. unfold selectCategory, applyFilter, updateButtonsUI, setActiveFrom.
  simpl. rewrite G. repeat split.
Qed.

Lemma iter_idempotent {A : Type} (f : A -> A) (n : nat) (x : A) :
  (forall y, f (f y) = f y) -> Nat.iter (S n) f x = f x.
Proof.
  intros I. induction n as [|n IH]; [reflexivity|].
  change (Nat.iter (S (S n)) f x) with (f (Nat.iter (S n) f x)).
  now rewrite IH.
Qed.

Lemma clickListener_idem (i : nat) (p : Page) :
  clickListener i (clickListener i p) = clickListener i p.
Proof.
  destruct (filterGroup p) as [g|] eqn:G.
  - destruct (nth_error g i) as [b|] eqn:N.
    + rewrite (clickListener_selectCategory i p g b G N).
      destruct (selectCategory_group (orAll (data_cat b)) p g G) as (G' & _).
      rewrite (clickListener_selectCategory i _ _ (syncButton (norm (JStr (orAll (data_cat b)))) b) G').
      * apply selectCategory_twice.
      * now rewrite nth_error_map, N.
    + unfold clickListener. rewrite G, N. unfold clickListener. now rewrite G, N.
  - unfold clickListener. rewrite G. unfold clickListener. now rewrite G.
Qed.

(** A click on a button with a listener is one run of the listener. *)
Lemma click_wired (i : nat) (p : Page) (group : list Button) (btn : Button) :
  filterGroup p = Some group -> nth_error group i = Some btn ->
  0 < clickListeners btn ->
  click i p = selectCategory (orAll (data_cat btn)) p.
Proof.
  intros G N L. unfold click. rewrite G, N.
  destruct (clickListeners btn) as [|n]; [lia|].
  rewrite (iter_idempotent _ _ _ (clickListener_idem i)).
  now apply clickListener_selectCategory with (group := group).
Qed.

Lemma click_cases (i : nat) (p : Page) :
  click i p = p \/
  exists group btn,
    filterGroup p = Some group /\ nth_error group i = Some btn /\
    click i p = selectCategory (orAll (data_cat btn)) p.
Proof.
  destruct (filterGroup p) as [g|] eqn:G.
  - destruct (nth_error g i) as [b|] eqn:N.
    + destruct (clickListeners b) as [|n] eqn:L.
      * left. unfold click. now rewrite G, N, L.
      * right. exists g, b. repeat split; try assumption.
        apply (click_wired i p g b G N). lia.
    + left. unfold click. now rewrite G, N.
  - left. unfold click. now rewrite G.
Qed.

(** X4.  The last click wins: a click on a wired button leaves the page
    exactly as it would have been without the click before it. *)
Theorem last_click_wins (i j : nat) (p : Page) (group : list Button) (btn : Button) :
  filterGroup p = Some group -> nth_error group j = Some btn ->
  0 < clickListeners btn ->
  click j (click i p) = click j p.
Proof.
  intros G N L.
  destruct (click_cases i p) as [-> | (g & b & G' & N' & E)]; [reflexivity|].
  rewrite E. rewrite G in G'. injection G' as <-.
  destruct (selectCategory_group (orAll (data_cat b)) p group G) as (G1 & _).
  rewrite (click_wired j _ _ (syncButton (norm (JStr (orAll (data_cat b)))) btn) G1).
  - rewrite (click_wired j p group btn G N L). apply selectCategory_twice.
  - now rewrite nth_error_map, N.
  - exact L.
Qed.

Lemma last_click_wins_witness :
  click 0 (click 2 headerPage) = click 0 headerPage.
Proof.
  apply (last_click_wins 2 0 headerPage
           (map (syncButton "904") (map wireButton headerGroup))
           (syncButton "904" (wireButton (mkButton (Some "category-904") true)))).
  - reflexivity.
  - reflexivity.
  - simpl. lia.
Defined.

Lemma map_filterEvent_display (A : string) (evs : list EventObj) :
  Forall2
    (fun ev ev' =>
       sameButDisplay ev ev' /\
       (display ev' = JStr "auto" <-> Shown A ev) /\
       (display ev' = JStr "none" <-> ~ Shown A ev))
    evs (map (filterEvent A) evs).
Proof.
  induction evs as [|ev evs IH]; simpl; constructor; auto using filterEvent_display.
Qed.

(** X5.  A click on a wired button stores the button's key as the active
    category, leaves that button selected (classes [active] and
    [btn-primary] on, [btn-outline-primary] off, [aria-pressed] true), and
    marks every event ['auto'] or ['none'] by that key; when the key is
    ["all"], every event is marked ['auto']. *)
Theorem click_selects_and_filters (i : nat) (p : Page) (group : list Button) (btn : Button) :
  filterGroup p = Some group -> nth_error group i = Some btn ->
  0 < clickListeners btn ->
  let q := click i p in
  activeCategory q = catKey btn /\
  (exists group' btn',
      filterGroup q = Some group' /\ nth_error group' i = Some btn' /\
      cls_active btn' = true /\ cls_btn_primary btn' = true /\
      cls_btn_outline_primary btn' = false /\ aria_pressed btn' = Some "true") /\
  Forall2
    (fun ev ev' =>
       sameButDisplay ev ev' /\
       (display ev' = JStr "auto" <-> Shown (catKey btn) ev) /\
       (display ev' = JStr "none" <-> ~ Shown (catKey btn) ev))
    (events p) (events q) /\
  (catKey btn = "all" -> Forall (fun ev' => display ev' = JStr "auto") (events q)).
Proof.
  intros G N L q. unfold q. rewrite (click_wired i p group btn G N L).
  destruct (selectCategory_group (orAll (data_cat btn)) p group G) as (G1 & _ & A1 & E1).
  fold (catKey btn) in G1, A1, E1.
  split; [exact A1|]. split; [|split].
  - exists (map (syncButton (catKey btn)) group), (syncButton (catKey btn) btn).
    split; [exact G1|]. split; [now rewrite nth_error_map, N|].
    unfold syncButton. simpl. fold (catKey btn). rewrite String.eqb_refl.
    repeat split.
  - rewrite E1. apply map_filterEvent_display.
  - intros K. rewrite E1, K. apply Forall_forall. intros ev' H.
    apply in_map_iff in H as (ev & <- & _).
    apply (filterEvent_display "all" ev). now left.
Qed.

Lemma click_selects_and_filters_witness :
  let p := set_events [classNameRecord; typedRecord] headerPage in
  let q := click 0 p in
  map display (events q) = [JStr "none"; JStr "auto"] /\
  (activeCategory q = "904" /\
   (exists group' btn',
       filterGroup q = Some group' /\ nth_error group' 0 = Some btn' /\
       cls_active btn' = true /\ cls_btn_primary btn' = true /\
       cls_btn_outline_primary btn' = false /\ aria_pressed btn' = Some "true") /\
   Forall2
     (fun ev ev' =>
        sameButDisplay ev ev' /\
        (display ev' = JStr "auto" <-> Shown "904" ev) /\
        (display ev' = JStr "none" <-> ~ Shown "904" ev))
     (events p) (events q) /\
   ("904" = "all" -> Forall (fun ev' => display ev' = JStr "auto") (events q))).
Proof.
  split; [reflexivity|].
  apply (click_selects_and_filters 0 (set_events [classNameRecord; typedRecord] headerPage)
           (map (syncButton "904") (map wireButton headerGroup))
           (syncButton "904" (wireButton (mkButton (Some "category-904") true)))).
  - reflexivity.
  - reflexivity.
  - simpl. lia.
Defined.

(** ** The closure variables *)

Lemma setActiveFrom_ClosureOk (raw : string) (p : Page) :
  String.eqb raw "" = false -> ClosureOk (setActiveFrom raw p).
Proof. intros H. split; [reflexivity | exact H]. Qed.

Lemma adoptMarkup_ClosureOk (m : option string) (p : Page) :
  ClosureOk p -> ClosureOk (adoptMarkup m p).
Proof.
  intros H. unfold adoptMarkup. destruct m as [raw|]; [|exact H].
  destruct (String.eqb raw "") eqn:E; [exact H | now apply setActiveFrom_ClosureOk].
Qed.

Lemma wireButtonsIfPresent_closure (p : Page) :
  let q := fst (wireButtonsIfPresent p) in
  let p1 := match filterGroup p with
            | None => p
            | Some _ => if buttonsWired p then p else adoptMarkup (readDefaultFromMarkup p) p
            end in
  activeCategoryRaw q = activeCategoryRaw p1 /\ activeCategory q = activeCategory p1.
Proof.
  unfold wireButtonsIfPresent, getFilterGroup.
  destruct (filterGroup p) as [g|]; simpl; [|split; reflexivity].
  destruct (buttonsWired p); simpl; split; reflexivity.
Qed.

Lemma wireButtonsIfPresent_ClosureOk (p : Page) :
  ClosureOk p -> ClosureOk (fst (wireButtonsIfPresent p)).
Proof.
  intros H. destruct (wireButtonsIfPresent_closure p) as [R A].
  unfold ClosureOk. rewrite R, A.
  destruct (filterGroup p); [|exact H].
  destruct (buttonsWired p); [exact H | now apply adoptMarkup_ClosureOk].
Qed.

Lemma ensureSingleEventSource_ClosureOk (p : Page) :
  ClosureOk p -> ClosureOk (ensureSingleEventSource p).
Proof.
  intros [A B].
  destruct (ensureSingleEventSource_frame p) as (_ & _ & _ & R & C & _).
  unfold ClosureOk. now rewrite R, C.
Qed.

Lemma step_ClosureOk (p : Page) (a : Action) : ClosureOk p -> ClosureOk (step p a).
Proof.
  intros H. destruct a as [i | raw | isLoading | group]; simpl.
  - destruct (click_cases i p) as [-> | (g & b & G & N & ->)]; [exact H|].
    destruct (selectCategory_group (orAll (data_cat b)) p g G) as (_ & R & A & _).
    unfold ClosureOk. rewrite R, A. split; [reflexivity | apply orAll_nonempty].
  - now apply adoptMarkup_ClosureOk.
  - unfold loading. destruct isLoading; simpl; [exact H|].
    apply (ensureSingleEventSource_ClosureOk _ (wireButtonsIfPresent_ClosureOk _ H)).
  - exact H.
Qed.

Lemma attach_ClosureOk (context : nat -> bool) (p : Page) :
  constructed (fst (attach context p)) = S (constructed p) ->
  ClosureOk (fst (attach context p)).
Proof.
  unfold attach.
  destruct (isSome (fcCalendarInstance p)); simpl; [lia|].
  destruct (once_frame context p) as (els & O & _).
  destruct (once context p) as [calendarEls p0]. simpl in O. subst p0.
  destruct calendarEls as [|el rest]; simpl; [lia|].
  destruct (1 <? List.length els); simpl; [lia|].
  intros _.
  match goal with |- context [wireButtonsIfPresent ?x] => set (p3 := x) end.
  assert (H3 : ClosureOk p3).
  { split; [reflexivity | apply orAll_nonempty]. }
  pose proof (wireButtonsIfPresent_ClosureOk p3 H3) as H4.
  destruct (wireButtonsIfPresent p3) as [p4 wiredNow]. simpl in H4. cbn [fst].
  apply ensureSingleEventSource_ClosureOk.
  destruct wiredNow; exact H4.
Qed.

Lemma history_ClosureOk (p : Page) (es : list PageEvent) :
  isSome (fcCalendarInstance p) = true -> ClosureOk p -> ClosureOk (history p es).
Proof.
  revert p. induction es as [|e es IH]; intros p F H; simpl; [exact H|].
  apply IH.
  - destruct e as [context | a]; simpl.
    + now rewrite (attach_guarded _ _ F).
    + destruct (step_instance p a) as [I _]. now rewrite I.
  - destruct e as [context | a]; simpl.
    + now rewrite (attach_guarded _ _ F).
    + now apply step_ClosureOk.
Qed.

(** X6.  From the [attach] that builds the widget on, whatever happens on
    the page, the active category is the key of the raw active category,
    the raw one is never empty, and the active category is a key that
    [norm] leaves as it is. *)
Theorem closure_variables_agree
  (p : Page) (first : nat -> bool) (later : list PageEvent) :
  constructed (fst (attach first p)) = S (constructed p) ->
  let q := history (fst (attach first p)) later in
  activeCategory q = norm (JStr (activeCategoryRaw q)) /\
  activeCategoryRaw q <> "" /\
  norm (JStr (activeCategory q)) = activeCategory q.
Proof.
  intros C q.
  destruct (history_ClosureOk _ later (attach_constructs_sets_flag first p C)
              (attach_ClosureOk first p C)) as [A B].
  fold q in A, B. repeat split.
  - exact A.
  - now apply String.eqb_neq.
  - rewrite A. apply norm_idempotent.
Qed.

Lemma closure_variables_agree_witness :
  let q := history (fst (attach wholeDocument (freshPage (Some bareGroup) 1)))
             [Act (Click 1); Act (SetMarkup (Some rerenderedGroup));
              Act (Transform classNameRecord); Act (Loading false)] in
  activeCategoryRaw q = "category-904" /\
  (activeCategory q = norm (JStr (activeCategoryRaw q)) /\
   activeCategoryRaw q <> "" /\
   norm (JStr (activeCategory q)) = activeCategory q).
Proof.
  split; [reflexivity|].
  apply (closure_variables_agree (freshPage (Some bareGroup) 1) wholeDocument
           [Act (Click 1); Act (SetMarkup (Some rerenderedGroup));
            Act (Transform classNameRecord); Act (Loading false)]).
  reflexivity.
Defined.

(** ** Wiring *)

Lemma wireButton_marked (btn : Button) :
  dataset_wired (wireButton btn) = true /\
  data_cat (wireButton btn) = data_cat btn /\
  clickListeners (wireButton btn)
  = clickListeners btn + (if dataset_wired btn then 0 else 1).
Proof.
  unfold wireButton. destruct (dataset_wired btn) eqn:W; simpl.
  - rewrite W. repeat split. lia.
  - repeat split. lia.
Qed.

Lemma wireButton_sync_fixed (A : string) (btn : Button) :
  wireButton (syncButton A (wireButton btn)) = syncButton A (wireButton btn).
Proof.
  unfold wireButton at 1. simpl.
  destruct (wireButton_marked btn) as (W & _). now rewrite W.
Qed.

Lemma page_rewired (q : Page) (g grp : option (list Button)) (b : bool) :
  filterGroup q = grp -> buttonsWired q = b ->
  set_buttonsWired b (set_filterGroup grp (set_filterGroup g q)) = q.
Proof. intros <- <-. destruct q; reflexivity. Qed.

(** X7.  [wireButtonsIfPresent] marks every button of the group as wired,
    adds one click listener to each button that was not marked and none to
    a marked one, and keeps the [data-cat] attributes; run again at once,
    it changes nothing on the page. *)
Theorem wiring_is_idempotent (p : Page) (group : list Button) :
  filterGroup p = Some group ->
  let q := fst (wireButtonsIfPresent p) in
  (exists group',
      filterGroup q = Some group' /\
      Forall2
        (fun btn btn' =>
           dataset_wired btn' = true /\
           data_cat btn' = data_cat btn /\
           clickListeners btn'
           = clickListeners btn + (if dataset_wired btn then 0 else 1))
        group group') /\
  wireButtonsIfPresent q = (q, true).
Proof.
  intros G q.
  destruct (wireButtonsIfPresent_present p group G) as (_ & A & W & F).
  fold q in A, W, F. split.
  - eexists. split; [exact F|].
    clear. induction group as [|b l IH]; simpl; constructor; [|exact IH].
    apply (wireButton_marked b).
  - unfold wireButtonsIfPresent at 1, getFilterGroup. rewrite F, W. simpl.
    unfold updateButtonsUI. simpl. rewrite A.
    f_equal. apply page_rewired; [|exact W].
    rewrite F. f_equal.
    rewrite !map_map. apply map_ext. intros b.
    now rewrite wireButton_sync_fixed.
Qed.

Lemma wiring_is_idempotent_witness :
  let q := fst (wireButtonsIfPresent (freshPage (Some headerGroup) 1)) in
  (exists group',
      filterGroup q = Some group' /\
      Forall2
        (fun btn btn' =>
           dataset_wired btn' = true /\
           data_cat btn' = data_cat btn /\
           clickListeners btn'
           = clickListeners btn + (if dataset_wired btn then 0 else 1))
        headerGroup group') /\
  wireButtonsIfPresent q = (q, true).
Proof.
  apply (wiring_is_idempotent (freshPage (Some headerGroup) 1) headerGroup).
  reflexivity.
Defined.

Lemma orAll_orAll (a : option string) : orAll (Some (orAll a)) = orAll a.
Proof. simpl. now rewrite orAll_nonempty. Qed.

(** X8.  When the buttons are wired for the first time, the first button
    the markup marks active decides the active category (["all"] when no
    button is marked); after the wiring a button is selected exactly when
    its key is that category, so a second button marked active in the
    markup loses the mark unless it has the same key. *)
Theorem first_active_button_decides (p : Page) (group : list Button) :
  filterGroup p = Some group -> buttonsWired p = false ->
  let A := match find cls_active group with
           | Some btn => catKey btn
           | None => "all"
           end in
  let q := fst (wireButtonsIfPresent p) in
  activeCategory q = A /\
  exists group',
    filterGroup q = Some group' /\
    map data_cat group' = map data_cat group /\
    Forall (InStep A) group'.
Proof.
  intros G W A q.
  destruct (wireButtonsIfPresent_present p group G) as (_ & HA & _ & HF).
  fold q in HA, HF. rewrite W in HA, HF.
  assert (E : norm (JStr (orAll (readDefaultFromMarkup p))) = A).
  { unfold readDefaultFromMarkup, getFilterGroup, querySelectorActive, A. rewrite G.
    destruct (find cls_active group) as [btn|]; [|reflexivity].
    unfold catKey. now rewrite orAll_orAll. }
  rewrite E in HA, HF. split; [exact HA|].
  eexists. split; [exact HF|]. split.
  - now rewrite map_syncButton_data_cat, map_wireButton_data_cat.
  - apply map_syncButton_InStep.
Qed.

Lemma first_active_button_decides_witness :
  let q := fst (wireButtonsIfPresent (freshPage (Some doubleActiveGroup) 1)) in
  option_map (map cls_active) (filterGroup q) = Some [false; true; false; true] /\
  (activeCategory q = "8" /\
   exists group',
     filterGroup q = Some group' /\
     map data_cat group' = map data_cat doubleActiveGroup /\
     Forall (InStep "8") group').
Proof.
  split; [reflexivity|].
  apply (first_active_button_decides (freshPage (Some doubleActiveGroup) 1) doubleActiveGroup);
    reflexivity.
Defined.

Lemma filterEvent_DisplayInLine (A : string) (ev : EventObj) :
  DisplayInLine A (filterEvent A ev).
Proof.
  destruct (filterEvent_display A ev) as (_ & H1 & H2).
  split; [exact H1 | exact H2].
Qed.

Lemma applyFilter_DisplayInLine (p : Page) :
  Forall (DisplayInLine (activeCategory (applyFilter p))) (events (applyFilter p)).
Proof.
  unfold applyFilter. simpl. apply Forall_forall. intros ev H.
  apply in_map_iff in H as (ev0 & <- & _). apply filterEvent_DisplayInLine.
Qed.

Lemma map_wireButton_marked (group : list Button) :
  Forall (fun btn => dataset_wired btn = true) (map wireButton group).
Proof.
  induction group as [|b l IH]; simpl; constructor; [|exact IH].
  apply (wireButton_marked b).
Qed.

(** X9.  With the filter block in the document, the callback that ends a
    fetch leaves the buttons in order: [buttonsWired] is set, every button
    is marked as wired and keeps its [data-cat], and each button is
    selected exactly when its key is the active category. *)
Theorem loading_done_puts_page_in_order (p : Page) (group : list Button) :
  filterGroup p = Some group ->
  let q := loading false p in
  buttonsWired q = true /\
  (exists group',
      filterGroup q = Some group' /\
      map data_cat group' = map data_cat group /\
      Forall (fun btn => dataset_wired btn = true) group' /\
      Forall (InStep (activeCategory q)) group').
Proof.
  intros G q.
  destruct (wireButtonsIfPresent_present p group G) as (_ & HA & HW & HF).
  destruct (ensureSingleEventSource_frame (fst (wireButtonsIfPresent p)))
    as (_ & _ & E3 & _ & E5 & E6 & _).
  assert (QA : activeCategory q = activeCategory (fst (wireButtonsIfPresent p))).
  { unfold q, loading, applyFilter. simpl. exact E5. }
  split.
  - unfold q, loading, applyFilter. simpl. now rewrite E6.
  - eexists. split.
    + unfold q, loading, applyFilter. simpl. rewrite E3. exact HF.
    + split; [now rewrite map_syncButton_data_cat, map_wireButton_data_cat|].
      split.
      * apply Forall_forall. intros b H.
        apply in_map_iff in H as (b0 & <- & H0).
        pose proof (map_wireButton_marked group) as M.
        rewrite Forall_forall in M. exact (M b0 H0).
      * rewrite QA, HA. apply map_syncButton_InStep.
Qed.

Lemma loading_done_puts_page_in_order_witness :
  let p := run headerPage [Click 1; SetMarkup (Some rerenderedGroup)] in
  let q := loading false p in
  (activeCategory q = "3" /\
   option_map (map cls_active) (filterGroup q) = Some [false; false] /\
   option_map (map clickListeners) (filterGroup q) = Some [1; 1]) /\
  (buttonsWired q = true /\
   (exists group',
       filterGroup q = Some group' /\
       map data_cat group' = map data_cat rerenderedGroup /\
       Forall (fun btn => dataset_wired btn = true) group' /\
       Forall (InStep (activeCategory q)) group')).
Proof.
  split; [repeat split; reflexivity|].
  apply (loading_done_puts_page_in_order
           (run headerPage [Click 1; SetMarkup (Some rerenderedGroup)])
           rerenderedGroup).
  reflexivity.
Defined.

(** ** [attach], its outcomes *)

Lemma onceFrom_none (context : nat -> bool) (i : nat) (els : list CalendarEl) :
  fst (onceFrom context i els) = [] -> snd (onceFrom context i els) = els.
Proof.
  revert i. induction els as [|el r IH]; intros i; simpl; [reflexivity|].
  specialize (IH (S i)).
  destruct (onceFrom context (S i) r) as [found rest]. simpl in IH.
  destruct (context i && negb (once_fc_init el)); simpl; [discriminate|].
  intros H. now rewrite (IH H).
Qed.

Lemma onceFrom_again (context : nat -> bool) (i : nat) (els : list CalendarEl) :
  onceFrom context i (snd (onceFrom context i els))
  = ([], snd (onceFrom context i els)).
Proof.
  revert i. induction els as [|el r IH]; intros i; simpl; [reflexivity|].
  specialize (IH (S i)).
  destruct (onceFrom context (S i) r) as [found rest]. simpl in IH.
  destruct (context i && negb (once_fc_init el)) eqn:E; simpl.
  - rewrite IH. now rewrite andb_false_r.
  - now rewrite IH, E.
Qed.

Lemma set_calendarNodes_same (p : Page) : set_calendarNodes (calendarNodes p) p = p.
Proof. destruct p; reflexivity. Qed.

Lemma onceFrom_found_one (context : nat -> bool) (i : nat) (el : CalendarEl) :
  fst (onceFrom context i [el]) <> [] <->
  context i = true /\ once_fc_init el = false.
Proof.
  simpl. destruct (context i), (once_fc_init el); simpl;
    (split;
     [ intros H; try (split; reflexivity); exfalso; apply H; reflexivity
     | intros [H1 H2]; try discriminate H1; try discriminate H2; discriminate ]).
Qed.

(** The three ways a call of [attach] ends: nothing happens; the element is
    marked and a warning logged; the widget is built. *)
Lemma attach_outcomes (context : nat -> bool) (p : Page) :
  let found := fst (onceFrom context 0 (calendarNodes p)) in
  let els := snd (onceFrom context 0 (calendarNodes p)) in
  (attach context p = (p, JUndefined) /\
   (isSome (fcCalendarInstance p) = true \/ found = [])) \/
  (attach context p
   = (set_consoleWarnings (S (consoleWarnings p)) (set_calendarNodes els p), JUndefined) /\
   fcCalendarInstance p = None /\ found <> [] /\ 1 < List.length (calendarNodes p)) \/
  (constructed (fst (attach context p)) = S (constructed p) /\
   snd (attach context p) = JUndefined /\
   fcCalendarInstance p = None /\ found <> [] /\ List.length (calendarNodes p) <= 1).
Proof.
  intros found els. unfold attach.
  destruct (fcCalendarInstance p) as [k|] eqn:F; simpl; [left; split; [reflexivity | now left]|].
  unfold once.
  assert (L : List.length els = List.length (calendarNodes p)).
  { destruct (once_frame context p) as (els' & O & L). unfold once in O.
    fold found els in O.
    destruct (onceFrom context 0 (calendarNodes p)) as [f e] eqn:Q. simpl in *.
    unfold els. simpl.
    assert (calendarNodes (set_calendarNodes e p) = calendarNodes (set_calendarNodes els' p))
      by now rewrite O.
    simpl in H. now rewrite H. }
  pose proof (onceFrom_none context 0 (calendarNodes p)) as N.
  fold found els in N.
  unfold found, els in *.
  destruct (onceFrom context 0 (calendarNodes p)) as [f e]. simpl in *.
  destruct f as [|el rest].
  - left. split; [|now right]. rewrite (N eq_refl). now rewrite set_calendarNodes_same.
  - destruct (1 <? List.length e) eqn:M.
    + right. left. apply Nat.ltb_lt in M. repeat split; try discriminate. lia.
    + right. right. apply Nat.ltb_ge in M.
      match goal with |- context [wireButtonsIfPresent ?x] => set (p3 := x) end.
      pose proof (wireButtonsIfPresent_instance p3) as [_ W].
      destruct (wireButtonsIfPresent p3) as [p4 wiredNow]. simpl in W. cbn [fst snd].
      split; [|repeat split; try discriminate; lia].
      match goal with |- context [ensureSingleEventSource ?x] =>
        destruct (ensureSingleEventSource_instance x) as [_ E]; rewrite E end.
      destruct wiredNow; simpl; rewrite W; reflexivity.
Qed.

Lemma attach_builds_only_if (context : nat -> bool) (p : Page) :
  constructed (fst (attach context p)) = S (constructed p) ->
  fcCalendarInstance p = None /\
  exists el, calendarNodes p = [el] /\ context 0 = true /\ once_fc_init el = false.
Proof.
  intros C. pose proof (attach_outcomes context p) as O. cbv zeta in O.
  destruct O as [(E & _) | [(E & _) | (_ & _ & F & N & L)]].
  - rewrite E in C. cbn in C. lia.
  - rewrite E in C. cbn in C. lia.
  - split; [exact F|].
    destruct (calendarNodes p) as [|el [|el' r]]; cbn in L; try lia.
    + cbn in N. congruence.
    + exists el. split; [reflexivity|]. now apply onceFrom_found_one.
Qed.

(** X10.  Calling [attach] again with the same context, right after a
    call of it, changes nothing and returns [undefined], however the first
    call ended: with the widget built, with the warning about several
    [#calendar] elements, or with nothing to do. *)
Theorem attach_again_is_noop (context : nat -> bool) (p : Page) :
  attach context (fst (attach context p)) = (fst (attach context p), JUndefined).
Proof.
  destruct (attach_outcomes context p)
    as [(E & _) | [(E & F & _ & _) | (C & _)]].
  - rewrite E. simpl. exact E.
  - rewrite E. cbn [fst]. unfold attach. simpl. rewrite F. simpl.
    unfold once. simpl. rewrite onceFrom_again. reflexivity.
  - apply attach_guarded. now apply attach_constructs_sets_flag.
Qed.

(** X11.  [attach] builds the widget exactly when no instance is recorded
    and the document has one [#calendar] element, which lies in the
    context and has not been handed out by [once] before. *)
Theorem attach_builds_iff (context : nat -> bool) (p : Page) :
  constructed (fst (attach context p)) = S (constructed p) <->
  fcCalendarInstance p = None /\
  exists el, calendarNodes p = [el] /\ context 0 = true /\ once_fc_init el = false.
Proof.
  pose proof (attach_outcomes context p) as O. cbv zeta in O.
  split.
  - intros C.
    destruct O as [(E & _) | [(E & _) | (_ & _ & F & N & L)]].
    + rewrite E in C. simpl in C. lia.
    + rewrite E in C. simpl in C. lia.
    + split; [exact F|].
      destruct (calendarNodes p) as [|el [|el' r]]; simpl in L; try lia.
      * simpl in N. congruence.
      * exists el. split; [reflexivity|]. now apply onceFrom_found_one.
  - intros (F & el & Q & Hc & Hm).
    destruct O as [(_ & [I | N]) | [(_ & _ & _ & L) | (C & _)]].
    + rewrite F in I. discriminate I.
    + exfalso. rewrite Q in N. revert N. apply onceFrom_found_one. now split.
    + rewrite Q in L. simpl in L. lia.
    + exact C.
Qed.

(** ** [attach] on a document with several containers *)

Lemma onceFrom_nth (context : nat -> bool) (k : nat) (els : list CalendarEl) (i : nat) :
  nth_error (snd (onceFrom context k els)) i
  = option_map
      (fun el => {| once_fc_init := once_fc_init el || context (k + i) |})
      (nth_error els i).
Proof.
  revert k i. induction els as [|el r IH]; intros k i; cbn [onceFrom].
  - now destruct i.
  - specialize (IH (S k)).
    destruct (onceFrom context (S k) r) as [found rest]. cbn [snd] in IH.
    destruct i as [|i].
    + rewrite Nat.add_0_r.
      destruct (context k), (once_fc_init el) eqn:M; cbn; try reflexivity;
        destruct el as [m]; cbn in M; now subst m.
    + replace (k + S i) with (S k + i) by lia.
      destruct (context k && negb (once_fc_init el)); cbn [snd nth_error]; apply IH.
Qed.

Lemma onceFrom_found_iff (context : nat -> bool) (k : nat) (els : list CalendarEl) :
  fst (onceFrom context k els) <> [] <->
  exists i el,
    nth_error els i = Some el /\ context (k + i) = true /\ once_fc_init el = false.
Proof.
  revert k. induction els as [|el r IH]; intros k; cbn [onceFrom].
  - cbn [fst]. split; [intros N; exfalso; now apply N|].
    intros (i & e & H & _). now destruct i.
  - specialize (IH (S k)).
    destruct (onceFrom context (S k) r) as [found rest]. cbn [fst] in IH.
    destruct (context k && negb (once_fc_init el)) eqn:B; cbn [fst].
    + split; [|discriminate]. intros _.
      apply andb_prop in B as [B1 B2]. apply negb_true_iff in B2.
      exists 0, el. rewrite Nat.add_0_r. now repeat split.
    + rewrite IH. split.
      * intros (i & e & H & C & M). exists (S i), e.
        replace (k + S i) with (S k + i) by lia. now repeat split.
      * intros (i & e & H & C & M). destruct i as [|i].
        -- cbn in H. injection H as <-. rewrite Nat.add_0_r in C.
           rewrite C, M in B. discriminate B.
        -- exists i, e. replace (S k + i) with (k + S i) by lia. now repeat split.
Qed.

Lemma CalendarEl_eta (el : CalendarEl) : {| once_fc_init := once_fc_init el |} = el.
Proof. now destruct el. Qed.

(** C9, as the code has it.  With more than one [#calendar] element in
    the document, [attach] returns [undefined] without a widget: the
    instance flag, the count of constructed calendars, the filter buttons
    with their listeners and wiring marks, the observers, the closure
    variables and the widget's events and sources are what they were.  The
    call does leave state behind.  Unless an instance was recorded already,
    [once] has by then marked every [#calendar] element of the context, and
    a warning is logged when one of them was not marked before; an element
    so marked is passed over by every later call of [attach], also when it
    is the only [#calendar] element left in the document. *)
Theorem attach_aborts_on_many_containers (context : nat -> bool) (p : Page) :
  1 < List.length (calendarNodes p) ->
  let q := fst (attach context p) in
  snd (attach context p) = JUndefined /\
  (fcCalendarInstance q = fcCalendarInstance p /\
   constructed q = constructed p /\
   filterGroup q = filterGroup p /\
   observers q = observers p /\
   buttonsWired q = buttonsWired p /\
   activeCategoryRaw q = activeCategoryRaw p /\
   activeCategory q = activeCategory p /\
   events q = events p /\
   sources q = sources p /\
   removalLog q = removalLog p) /\
  (List.length (calendarNodes q) = List.length (calendarNodes p) /\
   forall i el,
     nth_error (calendarNodes p) i = Some el ->
     nth_error (calendarNodes q) i
     = Some {| once_fc_init :=
                 once_fc_init el || (negb (isSome (fcCalendarInstance p)) && context i) |}) /\
  ((fcCalendarInstance p = None /\ HasFresh context (calendarNodes p) ->
    consoleWarnings q = S (consoleWarnings p)) /\
   (~ (fcCalendarInstance p = None /\ HasFresh context (calendarNodes p)) ->
    consoleWarnings q = consoleWarnings p)) /\
  (forall i el' context',
      fcCalendarInstance p = None -> context i = true ->
      nth_error (calendarNodes q) i = Some el' ->
      constructed (fst (attach context' (set_calendarNodes [el'] q))) = constructed q).
Proof.
  intros H q.
  pose proof (onceFrom_nth context 0 (calendarNodes p)) as NTH.
  pose proof (onceFrom_found_iff context 0 (calendarNodes p)) as FOUND.
  fold (HasFresh context (calendarNodes p)) in FOUND.
  pose proof (onceFrom_none context 0 (calendarNodes p)) as NONE.
  destruct (once_frame context p) as (els0 & _ & _).
  assert (Q : (q = p /\ snd (attach context p) = JUndefined /\
               (isSome (fcCalendarInstance p) = true \/
                fst (onceFrom context 0 (calendarNodes p)) = [])) \/
              (q = set_consoleWarnings (S (consoleWarnings p))
                     (set_calendarNodes (snd (onceFrom context 0 (calendarNodes p))) p) /\
               snd (attach context p) = JUndefined /\
               fcCalendarInstance p = None /\
               fst (onceFrom context 0 (calendarNodes p)) <> [])).
  { destruct (attach_outcomes context p) as [(E & D) | [(E & F & N & _) | (_ & _ & _ & _ & L)]].
    - left. unfold q. rewrite E. now repeat split.
    - right. unfold q. rewrite E. now repeat split.
    - lia. }
  assert (NODES : forall i el,
             nth_error (calendarNodes p) i = Some el ->
             nth_error (calendarNodes q) i
             = Some {| once_fc_init :=
                         once_fc_init el
                         || (negb (isSome (fcCalendarInstance p)) && context i) |}).
  { intros i el Hi.
    destruct Q as [(-> & _ & [I | N]) | (-> & _ & F & _)].
    - rewrite I. cbn [negb andb]. now rewrite orb_false_r, CalendarEl_eta.
    - destruct (isSome (fcCalendarInstance p)); cbn [negb andb].
      + now rewrite orb_false_r, CalendarEl_eta.
      + rewrite <- (NONE N) at 1. now rewrite NTH, Hi.
    - rewrite F. cbn [isSome negb andb calendarNodes set_consoleWarnings set_calendarNodes].
      now rewrite NTH, Hi. }
  split; [|split; [|split; [|split]]].
  - destruct Q as [(_ & R & _) | (_ & R & _)]; exact R.
  - destruct Q as [(-> & _) | (-> & _)]; repeat split.
  - split; [|exact NODES].
    destruct Q as [(-> & _) | (-> & _)]; [reflexivity|].
    cbn [calendarNodes set_consoleWarnings set_calendarNodes].
    destruct (once_frame context p) as (els & O & L). unfold once in O.
    destruct (onceFrom context 0 (calendarNodes p)) as [f e]. cbn [snd] in *.
    assert (E : calendarNodes (set_calendarNodes e p) = calendarNodes (set_calendarNodes els p))
      by now rewrite O.
    cbn in E. now rewrite E.
  - split.
    + intros (F & HF).
      destruct Q as [(-> & _ & [I | N]) | (-> & _)]; [| |reflexivity].
      * rewrite F in I. discriminate I.
      * exfalso. now apply FOUND in HF.
    + intros N.
      destruct Q as [(-> & _) | (-> & _ & F & HF)]; [reflexivity|].
      exfalso. apply N. split; [exact F | now apply FOUND].
  - intros i el' context' F C Hi.
    assert (M : once_fc_init el' = true).
    { destruct (nth_error (calendarNodes p) i) as [el|] eqn:Hp.
      - rewrite (NODES i el Hp) in Hi. injection Hi as <-.
        rewrite F, C. cbn. apply orb_true_r.
      - exfalso.
        assert (L : List.length (calendarNodes q) = List.length (calendarNodes p)).
        { destruct Q as [(-> & _) | (-> & _)]; [reflexivity|].
          cbn [calendarNodes set_consoleWarnings set_calendarNodes].
          destruct (once_frame context p) as (els & O & L). unfold once in O.
          destruct (onceFrom context 0 (calendarNodes p)) as [f e]. cbn [snd] in *.
          assert (E : calendarNodes (set_calendarNodes e p)
                      = calendarNodes (set_calendarNodes els p)) by now rewrite O.
          cbn in E. now rewrite E. }
        apply nth_error_None in Hp.
        assert (i < List.length (calendarNodes q)) by (apply nth_error_Some; congruence).
        lia. }
    set (r := set_calendarNodes [el'] q).
    destruct (attach_outcomes context' r) as [(E & _) | [(E & _) | (B & _)]].
    + now rewrite E.
    + now rewrite E.
    + apply attach_builds_only_if in B as (_ & el & Hel & _ & Um).
      cbn in Hel. injection Hel as <-. congruence.
Qed.

Lemma attach_aborts_on_many_containers_witness :
  let p := freshPage (Some headerGroup) 2 in
  let q := fst (attach wholeDocument p) in
  (calendarNodes q = [{| once_fc_init := true |}; {| once_fc_init := true |}] /\
   consoleWarnings q = 1) /\
  (snd (attach wholeDocument p) = JUndefined /\
   (fcCalendarInstance q = fcCalendarInstance p /\
    constructed q = constructed p /\
    filterGroup q = filterGroup p /\
    observers q = observers p /\
    buttonsWired q = buttonsWired p /\
    activeCategoryRaw q = activeCategoryRaw p /\
    activeCategory q = activeCategory p /\
    events q = events p /\
    sources q = sources p /\
    removalLog q = removalLog p) /\
   (List.length (calendarNodes q) = List.length (calendarNodes p) /\
    forall i el,
      nth_error (calendarNodes p) i = Some el ->
      nth_error (calendarNodes q) i
      = Some {| once_fc_init :=
                  once_fc_init el
                  || (negb (isSome (fcCalendarInstance p)) && wholeDocument i) |}) /\
   ((fcCalendarInstance p = None /\ HasFresh wholeDocument (calendarNodes p) ->
     consoleWarnings q = S (consoleWarnings p)) /\
    (~ (fcCalendarInstance p = None /\ HasFresh wholeDocument (calendarNodes p)) ->
     consoleWarnings q = consoleWarnings p)) /\
   (forall i el' context',
       fcCalendarInstance p = None -> wholeDocument i = true ->
       nth_error (calendarNodes q) i = Some el' ->
       constructed (fst (attach context' (set_calendarNodes [el'] q))) = constructed q)).
Proof.
  split; [split; reflexivity|].
  apply (attach_aborts_on_many_containers wholeDocument (freshPage (Some headerGroup) 2)).
  cbn. lia.
Defined.

(** C9, as stated, fails.  On a page with two [#calendar] elements the
    call leaves state behind: both elements carry the marker of [once] and
    a warning is logged, so the page is not what it was.  The marker
    outlives the abort: when the second element has been taken out of the
    document, [attach] still builds nothing, while on the same page with
    an unmarked element it builds the widget. *)
Lemma abort_leaves_once_marker :
  let p := freshPage (Some headerGroup) 2 in
  let q := fst (attach wholeDocument p) in
  q <> p /\
  calendarNodes p = [{| once_fc_init := false |}; {| once_fc_init := false |}] /\
  calendarNodes q = [{| once_fc_init := true |}; {| once_fc_init := true |}] /\
  consoleWarnings q = S (consoleWarnings p) /\
  constructed (fst (attach wholeDocument (set_calendarNodes [{| once_fc_init := true |}] q)))
  = 0 /\
  constructed (fst (attach wholeDocument (set_calendarNodes [{| once_fc_init := false |}] q)))
  = 1.
Proof.
  cbv zeta. split.
  - intros E. apply (f_equal calendarNodes) in E. vm_compute in E. discriminate E.
  - vm_compute. repeat split; reflexivity.
Qed.

Lemma ensureSingleEventSource_few (p : Page) :
  List.length (filter urlIsFeed (sources p)) <= 1 -> ensureSingleEventSource p = p.
Proof.
  intros H. unfold ensureSingleEventSource.
  destruct (1 <? _) eqn:E; [|reflexivity].
  apply Nat.ltb_lt in E. lia.
Qed.

(** The page a building [attach] leaves. *)
Lemma attach_builds_page (context : nat -> bool) (p : Page) (el : CalendarEl) :
  fcCalendarInstance p = None -> calendarNodes p = [el] ->
  context 0 = true -> once_fc_init el = false ->
  let p3 :=
    set_fcCalendarInstance (Some (S (constructed p)))
      (newCalendar
         (set_buttonsWired false
            (setActiveFrom (orAll (readDefaultFromMarkup p))
               (set_calendarNodes [{| once_fc_init := true |}] p)))) in
  fst (attach context p)
  = if snd (wireButtonsIfPresent p3)
    then fst (wireButtonsIfPresent p3)
    else set_observers (S (observers p3)) (fst (wireButtonsIfPresent p3)).
Proof.
  intros F Q C M p3. unfold attach. rewrite F. simpl.
  unfold once. rewrite Q. simpl. rewrite C, M. simpl.
  change (set_fcCalendarInstance (Some (S (constructed p))) _) with p3.
  destruct (wireButtonsIfPresent_widget p3) as (_ & S3 & _ & _ & O3 & _).
  destruct (wireButtonsIfPresent p3) as [p4 wiredNow]. simpl in S3, O3. cbn [fst snd].
  rewrite ensureSingleEventSource_few.
  - destruct wiredNow; [reflexivity | now rewrite O3].
  - assert (S5 : sources (if wiredNow then p4 else set_observers (S (observers p4)) p4)
                 = sources p3) by (destruct wiredNow; exact S3).
    rewrite S5. simpl. lia.
Qed.

(** X12.  Without a filter block, [attach] still builds the widget: the
    active category is ["all"], no button is wired, one observer watches
    the document and the widget has the feed as its only source.  On that
    page the pre-render transform marks every record ['auto'] and changes
    nothing, and the callback that ends a fetch marks every event
    ['auto']. *)

Lemma wireButtonsIfPresent_absent (p : Page) :
  filterGroup p = None -> wireButtonsIfPresent p = (p, false).
Proof. intros G. unfold wireButtonsIfPresent, getFilterGroup. now rewrite G. Qed.

Lemma norm_all : norm (JStr "all") = "all".
Proof. vm_compute. reflexivity. Qed.

(** The page a building [attach] leaves when the filter block is missing. *)
Lemma attach_builds_page_absent (context : nat -> bool) (p : Page) (el : CalendarEl) :
  filterGroup p = None ->
  fcCalendarInstance p = None -> calendarNodes p = [el] ->
  context 0 = true -> once_fc_init el = false ->
  fst (attach context p)
  = set_observers (S (observers p))
      (set_fcCalendarInstance (Some (S (constructed p)))
         (newCalendar
            (set_buttonsWired false
               (setActiveFrom "all"
                  (set_calendarNodes [{| once_fc_init := true |}] p))))).
Proof.
  intros G F Q C M.
  rewrite (attach_builds_page context p el F Q C M).
  assert (R : readDefaultFromMarkup p = None).
  { unfold readDefaultFromMarkup, getFilterGroup. now rewrite G. }
  rewrite R. cbn [orAll].
  rewrite wireButtonsIfPresent_absent by exact G.
  reflexivity.
Qed.

(** X12.  Without a filter block, [attach] still builds the widget: the
    active category is ["all"], no button is wired, one observer watches
    the document and the widget has the feed as its only source.  On that
    page the pre-render transform marks every record ['auto'] and changes
    nothing, and the callback that ends a fetch marks every event
    ['auto']. *)
Theorem no_filter_block_shows_everything
  (context : nat -> bool) (p : Page) (raw : EventObj) (evs : list EventObj) :
  filterGroup p = None ->
  constructed (fst (attach context p)) = S (constructed p) ->
  let q := fst (attach context p) in
  (activeCategoryRaw q = "all" /\ activeCategory q = "all" /\
   buttonsWired q = false /\ filterGroup q = None /\
   observers q = S (observers p) /\
   map url (sources q) = [Some FEED_URL] /\ events q = []) /\
  (fst (eventDataTransform raw q) = q /\
   display (snd (eventDataTransform raw q)) = JStr "auto") /\
  Forall (fun ev => display ev = JStr "auto") (events (loading false (set_events evs q))).
Proof.
  intros G C q.
  apply attach_builds_only_if in C as (F & el & Q & Hc & Hm).
  pose proof (attach_builds_page_absent context p el G F Q Hc Hm) as E.
  fold q in E.
  assert (Gq : filterGroup q = None) by (rewrite E; exact G).
  assert (Aq : activeCategory q = "all") by (rewrite E; exact norm_all).
  assert (Rq : readDefaultFromMarkup q = None).
  { unfold readDefaultFromMarkup, getFilterGroup. now rewrite Gq. }
  split; [|split].
  - split; [rewrite E; reflexivity|].
    split; [exact Aq|].
    split; [rewrite E; reflexivity|].
    split; [exact Gq|].
    split; [rewrite E; reflexivity|].
    split; rewrite E; reflexivity.
  - unfold eventDataTransform. rewrite Rq. cbn [adoptMarkup fst snd].
    rewrite Aq. split; reflexivity.
  - unfold loading. cbn [negb].
    rewrite (wireButtonsIfPresent_absent (set_events evs q)) by exact Gq.
    cbn [fst]. unfold applyFilter. cbn [events set_events].
    destruct (ensureSingleEventSource_frame (set_events evs q)) as (_ & _ & _ & _ & A5 & _).
    rewrite A5. cbn [activeCategory set_events]. rewrite Aq.
    apply Forall_forall. intros ev H. apply in_map_iff in H as (ev0 & <- & _).
    apply (filterEvent_display "all" ev0). now left.
Qed.

Lemma no_filter_block_shows_everything_witness :
  let q := fst (attach wholeDocument (freshPage None 1)) in
  (activeCategoryRaw q = "all" /\ activeCategory q = "all" /\
   buttonsWired q = false /\ filterGroup q = None /\
   observers q = 1 /\
   map url (sources q) = [Some FEED_URL] /\ events q = []) /\
  (fst (eventDataTransform classNameRecord q) = q /\
   display (snd (eventDataTransform classNameRecord q)) = JStr "auto") /\
  Forall (fun ev => display ev = JStr "auto")
    (events (loading false (set_events [classNameRecord; typedRecord] q))).
Proof.
  apply (no_filter_block_shows_everything wholeDocument (freshPage None 1)
           classNameRecord [classNameRecord; typedRecord]); reflexivity.
Defined.

Lemma wireButtonsIfPresent_fresh (p : Page) (group : list Button) (m : string) :
  filterGroup p = Some group -> buttonsWired p = false ->
  readDefaultFromMarkup p = Some m -> String.eqb m "" = false ->
  wireButtonsIfPresent p
  = (set_buttonsWired true
       (set_filterGroup (Some (map (syncButton (norm (JStr m))) (map wireButton group)))
          (setActiveFrom m p)), true).
Proof.
  intros G W R T. unfold wireButtonsIfPresent, getFilterGroup.
  rewrite G, W, R. cbn [negb adoptMarkup]. rewrite T.
  unfold updateButtonsUI. reflexivity.
Qed.

(** X13.  Late wiring adopts the markup and wires the buttons, and does
    not filter.  When [attach] built the widget on a page without the
    filter block, the observer's callback does nothing while the block is
    missing, whatever events the widget holds.  Once the block is in the
    document, the callback leaves the closure variables, the buttons and all
    the rest of the page as [attach] would have left them had the block
    been there from the start, the observer disconnected; the events the
    widget holds are not touched, since the callback does not call
    [applyFilter]. *)
Theorem late_wiring_catches_up
  (context : nat -> bool) (p : Page) (group : list Button) (evs : list EventObj) :
  filterGroup p = None ->
  constructed (fst (attach context p)) = S (constructed p) ->
  let q := set_events evs (fst (attach context p)) in
  onMutation q = q /\
  onMutation (set_filterGroup (Some group) q)
  = set_events evs (fst (attach context (set_filterGroup (Some group) p))) /\
  events (onMutation (set_filterGroup (Some group) q)) = evs.
Proof.
  intros G C q.
  apply attach_builds_only_if in C as (F & el & Q & Hc & Hm).
  assert (E2 : onMutation (set_filterGroup (Some group) q)
               = set_events evs (fst (attach context (set_filterGroup (Some group) p)))).
  { unfold q.
    rewrite (attach_builds_page_absent context p el G F Q Hc Hm).
    rewrite (attach_builds_page context (set_filterGroup (Some group) p) el F Q Hc Hm).
    destruct (readDefaultFromMarkup_present (set_filterGroup (Some group) p) group eq_refl)
      as (m & Rm & T).
    rewrite Rm.
    assert (O : orAll (Some m) = m) by (cbn [orAll]; now rewrite T).
    rewrite O. unfold onMutation.
    erewrite wireButtonsIfPresent_fresh;
      [ | reflexivity | reflexivity | exact Rm | exact T ].
    erewrite wireButtonsIfPresent_fresh;
      [ | reflexivity | reflexivity | exact Rm | exact T ].
    reflexivity. }
  split; [|split].
  - unfold q. rewrite (attach_builds_page_absent context p el G F Q Hc Hm).
    unfold onMutation. rewrite wireButtonsIfPresent_absent by exact G. reflexivity.
  - exact E2.
  - rewrite E2. reflexivity.
Qed.

Lemma late_wiring_catches_up_witness :
  let q := set_events [event904; event3] (fst (attach wholeDocument (freshPage None 1))) in
  let late := onMutation (set_filterGroup (Some headerGroup) q) in
  (activeCategory late = "904" /\ buttonsWired late = true /\ observers late = 0 /\
   map display (events late) = [JUndefined; JUndefined]) /\
  (onMutation q = q /\
   late
   = set_events [event904; event3]
       (fst (attach wholeDocument (set_filterGroup (Some headerGroup) (freshPage None 1)))) /\
   events late = [event904; event3]).
Proof.
  split; [repeat split; reflexivity|].
  apply (late_wiring_catches_up wholeDocument (freshPage None 1) headerGroup
           [event904; event3]); reflexivity.
Defined.

(** ** One listener per button *)

Lemma wireButton_Tidy (btn : Button) : Tidy btn -> Tidy (wireButton btn).
Proof.
  unfold Tidy, wireButton. destruct (dataset_wired btn) eqn:W; simpl.
  - now rewrite W.
  - intros ->. reflexivity.
Qed.

Lemma syncButton_Tidy (A : string) (btn : Button) : Tidy btn -> Tidy (syncButton A btn).
Proof. intros H. exact H. Qed.

Lemma Forall_map_Tidy (f : Button -> Button) (group : list Button) :
  (forall b, Tidy b -> Tidy (f b)) -> Forall Tidy group -> Forall Tidy (map f group).
Proof.
  intros Hf H. induction H as [|b l B _ IH]; simpl; constructor; auto.
Qed.

Lemma wireButtonsIfPresent_Tidy (p : Page) :
  TidyPage p -> TidyPage (fst (wireButtonsIfPresent p)).
Proof.
  unfold TidyPage. intros H.
  destruct (filterGroup p) as [g|] eqn:G.
  - destruct (wireButtonsIfPresent_present p g G) as (_ & _ & _ & F). rewrite F.
    apply Forall_map_Tidy; [apply syncButton_Tidy|].
    apply Forall_map_Tidy; [apply wireButton_Tidy | exact H].
  - rewrite (wireButtonsIfPresent_absent p G). cbn [fst]. now rewrite G.
Qed.

Lemma step_Tidy (p : Page) (a : Action) :
  TidyEvent (Act a) -> TidyPage p -> TidyPage (step p a).
Proof.
  intros T H. destruct a as [i | raw | isLoading | group]; cbn [step].
  - destruct (click_cases i p) as [-> | (g & b & G & N & ->)]; [exact H|].
    destruct (selectCategory_group (orAll (data_cat b)) p g G) as (F & _).
    unfold TidyPage in *. rewrite F. rewrite G in H.
    apply Forall_map_Tidy; [apply syncButton_Tidy | exact H].
  - unfold TidyPage in *.
    assert (E : filterGroup (fst (eventDataTransform raw p)) = filterGroup p).
    { unfold eventDataTransform, adoptMarkup. cbn [fst].
      destruct (readDefaultFromMarkup p) as [m|]; [|reflexivity].
      destruct (String.eqb m ""); reflexivity. }
    now rewrite E.
  - unfold loading. destruct isLoading; cbn [negb]; [exact H|].
    pose proof (wireButtonsIfPresent_Tidy p H) as W.
    destruct (ensureSingleEventSource_frame (fst (wireButtonsIfPresent p)))
      as (_ & _ & E3 & _).
    unfold TidyPage in *. unfold applyFilter. cbn [filterGroup set_events].
    now rewrite E3.
  - unfold TidyPage. cbn [filterGroup set_filterGroup].
    destruct group as [g|]; [exact T | exact I].
Qed.

Lemma attach_Tidy (context : nat -> bool) (p : Page) :
  TidyPage p -> TidyPage (fst (attach context p)).
Proof.
  intros H.
  destruct (attach_outcomes context p)
    as [(E & _) | [(E & _) | (C & _)]].
  - now rewrite E.
  - rewrite E. exact H.
  - apply attach_builds_only_if in C as (F & el & Q & Hc & Hm).
    rewrite (attach_builds_page context p el F Q Hc Hm).
    match goal with |- context [wireButtonsIfPresent ?x] => set (p3 := x) end.
    assert (H3 : TidyPage p3) by exact H.
    pose proof (wireButtonsIfPresent_Tidy p3 H3) as W.
    destruct (snd (wireButtonsIfPresent p3)); exact W.
Qed.

(** X14.  No button ever gets a second click listener.  On a page whose
    buttons are tidy (a button marked as wired has one listener of the
    script, an unmarked one none), and as long as markup that arrives from
    outside is tidy too, every button stays tidy whatever happens: calls of
    [attach], clicks, transforms, fetches that end. *)
Theorem one_listener_per_button (p : Page) (es : list PageEvent) :
  TidyPage p -> Forall TidyEvent es -> TidyPage (history p es).
Proof.
  revert p. induction es as [|e es IH]; intros p H T; cbn [history fold_left]; [exact H|].
  inversion T as [|? ? Te Ts]; subst.
  apply IH; [|exact Ts].
  destruct e as [context | a]; cbn [happen].
  - now apply attach_Tidy.
  - now apply step_Tidy.
Qed.

Lemma one_listener_per_button_witness :
  TidyPage
    (history (freshPage (Some headerGroup) 1)
       [Attach wholeDocument; Act (Loading false); Act (Click 2);
        Act (SetMarkup (Some rerenderedGroup)); Act (Loading false);
        Attach wholeDocument; Act (Loading false)]).
Proof.
  apply (one_listener_per_button (freshPage (Some headerGroup) 1)
           [Attach wholeDocument; Act (Loading false); Act (Click 2);
            Act (SetMarkup (Some rerenderedGroup)); Act (Loading false);
            Attach wholeDocument; Act (Loading false)]).
  - repeat constructor.
  - repeat constructor.
Defined.

(** ** Spinner, visibility and warning *)

(** X15.  After any run of [loading] and [failure] callbacks, the calendar
    container is hidden exactly when the last [loading] call said that a
    fetch is under way, the spinner (when the page has one) is shown
    exactly then, and the warning (when the page has one) is shown as soon
    as one fetch has failed and never hidden again; an element the page
    lacks is never created. *)
Theorem spinner_and_warning (l : list FetchSignal) (c : Chrome) :
  let c' := fold_left signal l c in
  calVisibility c'
  = match lastLoading l with
    | Some true => "hidden"
    | Some false => "visible"
    | None => calVisibility c
    end /\
  loadingDisplay c'
  = match lastLoading l, loadingDisplay c with
    | Some b, Some _ => Some (if b then "block" else "none")
    | _, d => d
    end /\
  warningDisplay c'
  = match existsb isFailure l, warningDisplay c with
    | true, Some _ => Some "block"
    | _, d => d
    end.
Proof.
  revert c. induction l as [|s r IH]; intros c; cbn [fold_left lastLoading existsb].
  - repeat split; destruct (loadingDisplay c), (warningDisplay c); reflexivity.
  - destruct (IH (signal c s)) as (V & L & W). cbv zeta. rewrite V, L, W. clear V L W IH.
    destruct s as [b|]; cbn [signal loadingStyle failure isFailure orb
                              calVisibility loadingDisplay warningDisplay];
      destruct (lastLoading r) as [[|]|], (existsb isFailure r),
        (loadingDisplay c), (warningDisplay c); try destruct b; repeat split.
Qed.

(** ** The earlier variants *)

Lemma V1_loading_done (s : V1.State) :
  V1.didInitialFilter (V1.loading false s) = true \/ V1.loading false s = s.
Proof.
  unfold V1.loading. destruct (V1.didInitialFilter s) eqn:D; cbn [negb andb].
  - right. reflexivity.
  - left. reflexivity.
Qed.

Lemma V1_loading_after (s : V1.State) (isLoading : bool) :
  V1.didInitialFilter s = true -> V1.loading isLoading s = s.
Proof. intros D. unfold V1.loading. rewrite D. now rewrite andb_false_r. Qed.

Lemma V1ShownByContract_shows (active : option string) (ev : EventObj) :
  V1ShownByContract active ev <-> V1.shows active ev = true.
Proof.
  unfold V1ShownByContract, V1.shows, V1.eventCat. rewrite orb_true_iff. split.
  - intros [-> | (ep & E & ->)].
    + left. reflexivity.
    + right. rewrite E. apply String.eqb_refl.
  - intros [H | H].
    + left. destruct active as [a|]; cbn in H; [|discriminate].
      apply String.eqb_eq in H. now subst a.
    + right. destruct active as [a|]; [|discriminate].
      destruct (extendedProps ev) as [ep|]; [|discriminate].
      apply String.eqb_eq in H. subst a. now exists ep.
Qed.

(** X16.  In the first variant the [loading] callback filters once.  A
    fetch that starts changes nothing and does not use the filter up.  The
    first fetch that ends marks every event of the widget, by the active
    category and the first variant's rule, and changes nothing else but
    the flag; after it no call of [loading] changes anything, whatever
    events the widget holds by then, so events of a later fetch keep the
    [display] they came with. *)
Theorem V1_loading_filters_once
  (s : V1.State) (evs : list EventObj) (flags : list bool) :
  V1.didInitialFilter s = false ->
  let s1 := V1.loading false s in
  V1.loading true s = s /\
  (V1.didInitialFilter s1 = true /\
   V1.activeCategory s1 = V1.activeCategory s /\
   V1.filterButtons s1 = V1.filterButtons s /\
   Forall2
     (fun ev ev' =>
        sameButDisplay ev ev' /\
        (display ev' = JStr "auto" <-> V1ShownByContract (V1.activeCategory s) ev) /\
        (display ev' = JStr "none" <-> ~ V1ShownByContract (V1.activeCategory s) ev))
     (V1.events s) (V1.events s1)) /\
  fold_left (fun st isLoading => V1.loading isLoading st) flags (V1.set_events evs s1)
  = V1.set_events evs s1.
Proof.
  intros D s1. split; [reflexivity|]. split.
  - unfold s1, V1.loading. rewrite D. cbn [negb andb].
    cbn [V1.applyFilter V1.didInitialFilter V1.activeCategory V1.filterButtons V1.events].
    repeat split.
    induction (V1.events s) as [|ev l IH]; cbn [map]; constructor; [|exact IH].
    split; [repeat split|].
    rewrite (V1ShownByContract_shows (V1.activeCategory s) ev).
    cbn [display setDisplay].
    destruct (V1.shows (V1.activeCategory s) ev); split; split; intros H;
      try reflexivity; try discriminate H; try congruence.
  - assert (D1 : V1.didInitialFilter (V1.set_events evs s1) = true).
    { unfold s1, V1.loading. rewrite D. reflexivity. }
    induction flags as [|b l IH]; cbn [fold_left]; [reflexivity|].
    now rewrite (V1_loading_after _ b D1).
Qed.

Lemma V1_loading_filters_once_witness :
  let s1 := V1.loading false V1sample in
  (V1.activeCategory V1sample = Some "category-904" /\
   map display (V1.events s1) = [JStr "none"; JStr "auto"; JStr "none"]) /\
  (V1.loading true V1sample = V1sample /\
   (V1.didInitialFilter s1 = true /\
    V1.activeCategory s1 = V1.activeCategory V1sample /\
    V1.filterButtons s1 = V1.filterButtons V1sample /\
    Forall2
      (fun ev ev' =>
         sameButDisplay ev ev' /\
         (display ev' = JStr "auto" <-> V1ShownByContract (V1.activeCategory V1sample) ev) /\
         (display ev' = JStr "none" <-> ~ V1ShownByContract (V1.activeCategory V1sample) ev))
      (V1.events V1sample) (V1.events s1)) /\
   fold_left (fun st isLoading => V1.loading isLoading st) [true; false; false]
     (V1.set_events [event3] s1)
   = V1.set_events [event3] s1).
Proof.
  split; [split; reflexivity|].
  apply (V1_loading_filters_once V1sample [event3] [true; false; false]).
  reflexivity.
Defined.

Lemma norm_of_trimmed (v : JsValue) :
  looseNull v = false -> norm (JStr (trim (ToString v))) = norm v.
Proof.
  intros L. unfold norm. rewrite L. cbn [looseNull ToString]. now rewrite trim_idem.
Qed.

(** X17.  Normalising only adds matches.  An event with a category under
    [extendedProps.category] that the first variant shows for a raw active
    category is shown by [applyFilter] of the last variant for the key of
    that category. *)
Theorem V1_shown_stays_shown (raw : string) (ev : EventObj) (ep : ExtendedProps) :
  extendedProps ev = Some ep -> looseNull (category ep) = false ->
  V1.shows (Some raw) ev = true ->
  display (filterEvent (norm (JStr raw)) ev) = JStr "auto".
Proof.
  intros E L S. apply (filterEvent_display (norm (JStr raw)) ev).
  unfold V1.shows, V1.eventCat in S. rewrite E in S. cbn [V1.sameAttr] in S.
  apply orb_true_iff in S as [S | S]; apply String.eqb_eq in S; subst raw.
  - left. exact norm_all.
  - right. unfold eventKey, extendedCategory, nullish. rewrite E.
    repeat rewrite L.
    symmetry. now apply norm_of_trimmed.
Qed.

Lemma V1_shown_stays_shown_witness :
  V1.shows (Some "category-904") spacedRecord = true /\
  display (filterEvent (norm (JStr "category-904")) spacedRecord) = JStr "auto".
Proof.
  split; [reflexivity|].
  apply (V1_shown_stays_shown "category-904" spacedRecord
           {| category := JStr " category-904 "; Category := JUndefined; type := JUndefined |});
    reflexivity.
Defined.

Lemma V1_sameAttr_eq (a b : option string) : V1.sameAttr a b = true <-> a = b.
Proof.
  destruct a as [x|], b as [y|]; simpl; split; intros H;
    try discriminate; try reflexivity.
  - apply String.eqb_eq in H. now subst.
  - injection H as ->. apply String.eqb_refl.
Qed.

(** X18.  In the first variant a click stores the button's [data-cat], or
    ["all"] when it is missing or empty, and selects the buttons whose
    [data-cat] is that very string; so a button without [data-cat] is never
    selected after a click, not even after the click on itself. *)
Theorem V1_click_selects_exact_match (i : nat) (s : V1.State) (btn : Button) :
  nth_error (V1.filterButtons s) i = Some btn ->
  let s' := V1.clickListener i s in
  V1.activeCategory s' = Some (orAll (data_cat btn)) /\
  Forall2
    (fun b b' =>
       data_cat b' = data_cat b /\
       (cls_active b' = true <-> data_cat b = Some (orAll (data_cat btn))) /\
       (data_cat b = None -> cls_active b' = false))
    (V1.filterButtons s) (V1.filterButtons s').
Proof.
  intros N s'. unfold s', V1.clickListener. rewrite N.
  cbn [V1.applyFilter V1.updateButtonsUI V1.activeCategory V1.filterButtons].
  split; [reflexivity|].
  induction (V1.filterButtons s) as [|b l IH] in |- *; cbn [map]; constructor; [|exact IH].
  cbn [V1.syncButton data_cat cls_active].
  split; [reflexivity|]. split.
  - apply V1_sameAttr_eq.
  - intros ->. reflexivity.
Qed.

Lemma V1_click_selects_exact_match_witness :
  let s := V1.start (Some bareGroup) in
  let s' := V1.clickListener 1 s in
  map cls_active (V1.filterButtons s) = [false; true; false] /\
  map cls_active (V1.filterButtons s') = [false; false; false] /\
  (V1.activeCategory s' = Some "all" /\
   Forall2
     (fun b b' =>
        data_cat b' = data_cat b /\
        (cls_active b' = true <-> data_cat b = Some "all") /\
        (data_cat b = None -> cls_active b' = false))
     (V1.filterButtons s) (V1.filterButtons s')).
Proof.
  split; [reflexivity|]. split; [reflexivity|].
  apply (V1_click_selects_exact_match 1 (V1.start (Some bareGroup))
           (V1.syncButton None (V1.addListener (mkButton None true)))).
  reflexivity.
Defined.

(** X19.  The call of [ensureSingleEventSource] that ends [attach] in the
    last variant removes nothing: [attach] leaves the page that the
    [attach] of the second variant, which has no such call, leaves. *)
Theorem V2_attach_same_page (context : nat -> bool) (p : Page) :
  V2.attach context p = attach context p.
Proof.
  unfold V2.attach, attach.
  destruct (isSome (fcCalendarInstance p)); [reflexivity|].
  destruct (once context p) as [calEls p0].
  destruct calEls as [|el rest]; [reflexivity|].
  destruct (1 <? List.length (calendarNodes p0)); [reflexivity|].
  match goal with |- context [wireButtonsIfPresent ?x] => set (p3 := x) end.
  destruct (wireButtonsIfPresent_widget p3) as (_ & S3 & _).
  destruct (wireButtonsIfPresent p3) as [p4 wiredNow]. cbn [fst] in S3.
  rewrite ensureSingleEventSource_few; [reflexivity|].
  assert (S5 : sources (if wiredNow then p4 else set_observers (S (observers p4)) p4)
               = sources p3) by (destruct wiredNow; exact S3).
  rewrite S5. cbn. lia.
Qed.

(** ** Sources after a fetch *)

Lemma firstn_one_length {A : Type} (l : list A) : List.length (firstn 1 l) <= 1.
Proof. destruct l as [|a [|b r]]; simpl; lia. Qed.

(** X20.  When a fetch ends, the callback leaves at most one source that
    points at the feed: on a widget whose source objects are distinct, the
    sources after [loading(false)] are the sources before it without the
    second and later feed sources, whatever the state of the filter
    block. *)
Theorem loading_done_leaves_one_feed (p : Page) :
  NoDup (map internalId (sources p)) ->
  sources (loading false p) = retainFirstFeed (sources p) /\
  List.length (filter urlIsFeed (sources (loading false p))) <= 1.
Proof.
  intros D.
  assert (S : sources (loading false p) = retainFirstFeed (sources p)).
  { unfold loading, applyFilter. cbn [negb sources set_events].
    destruct (wireButtonsIfPresent_widget p) as (_ & W & _).
    rewrite ensureSingleEventSource_unfold, removeAll_sources, W.
    now apply retainFirstFeed_filter. }
  split; [exact S|].
  rewrite S, retainFirstFeed_feed. apply firstn_one_length.
Qed.

Lemma loading_done_leaves_one_feed_witness :
  let p := set_sources crowdedSources headerPage in
  map internalId (sources (loading false p)) = [0; 1] /\
  (sources (loading false p) = retainFirstFeed (sources p) /\
   List.length (filter urlIsFeed (sources (loading false p))) <= 1).
Proof.
  split; [reflexivity|].
  apply (loading_done_leaves_one_feed (set_sources crowdedSources headerPage)).
  cbn. repeat constructor; cbn; lia.
Defined.
